(** * Zoho Attendance Manager: token cache and attendance trigger

    A shallow embedding of [zoho_token_manager.js] (the credential cache:
    [refreshAccessToken], [getAccessToken]) and of [attendance_manager.js]
    (the trigger and the scheduler: [checkInOut], [checkIn], [checkOut],
    [setupCronJobs], [startScheduler]).

    The JavaScript is asynchronous but sequential: every [await] is the
    next step of one caller.  An [async] function is embedded as a function
    from the state of the outside world (files, token server, clock,
    console, cron table) to an outcome (returned value or thrown error)
    and the world it leaves behind.  Effects made before a [throw] stay. *)

From Stdlib Require Import ZArith Ascii String List Lia Bool.
From stdpp Require Import base option gmap strings list pretty.

Import ListNotations.
Set Warnings "-register-all".
#[local] Arguments String.append !_ _ : simpl nomatch.
Local Open Scope string_scope.
Local Open Scope Z_scope.

(** ** JavaScript values *)

Module JS.

(** The values that reach the two modules: what [JSON.parse] and axios
    hand over, and [undefined].  A Number is carried by its decimal text;
    no function of the program computes with one. *)
Inductive Value : Type :=
  | undefined
  | null
  | Bool (b : bool)
  | Num (text : string)
  | Str (s : string)
  | Arr (elems : list Value)
  | Obj (props : list (string * Value)).

(** A number text denotes zero when its mantissa has no digit but [0]. *)
Fixpoint zero_mantissa (t : string) : bool :=
  match t with
  | EmptyString => true
  | String c r =>
      if (Ascii.eqb c "e" || Ascii.eqb c "E")%bool then true
      else if (Ascii.eqb c "-" || Ascii.eqb c "." || Ascii.eqb c "0")%bool
           then zero_mantissa r
           else false
  end.

(** [ToBoolean]: the operand test of [!x] and [x || y]. *)
Definition truthy (v : Value) : bool :=
  match v with
  | undefined | null => false
  | Bool b => b
  | Num t => negb (zero_mantissa t || String.eqb t "NaN")
  | Str s => negb (String.eqb s "")
  | Arr _ | Obj _ => true
  end.

(** [a || b] *)
Definition or_else (a b : Value) : Value := if truthy a then a else b.

Definition join (sep : string) (parts : list string) : string :=
  String.concat sep parts.

(** [ToString], as a template literal applies it: a plain object prints
    as [[object Object]], an array as its elements joined by commas with
    [null] and [undefined] printed empty. *)
Fixpoint ToString (v : Value) : string :=
  match v with
  | undefined => "undefined"
  | null => "null"
  | Bool true => "true"
  | Bool false => "false"
  | Num t => t
  | Str s => s
  | Arr elems =>
      join ","
        (List.map (fun e => match e with
                            | undefined | null => ""
                            | _ => ToString e
                            end) elems)
  | Obj _ => "[object Object]"
  end.

(** Own property of an object built from JSON, first binding found. *)
Fixpoint lookup_prop (k : string) (props : list (string * Value)) : option Value :=
  match props with
  | [] => None
  | (k', v) :: rest => if String.eqb k k' then Some v else lookup_prop k rest
  end.

(** Assignment [o[k] = v]: an existing key keeps its place. *)
Fixpoint set_prop (k : string) (v : Value) (props : list (string * Value))
  : list (string * Value) :=
  match props with
  | [] => [(k, v)]
  | (k', v') :: rest =>
      if String.eqb k k' then (k, v) :: rest else (k', v') :: set_prop k v rest
  end.

(** [v.k] for a key [k] that no built-in prototype defines (such as
    [access_token]): reading it off [null] or [undefined] is a TypeError
    ([None] here), off any other value without that own property it is
    [undefined]. *)
Definition get (v : Value) (k : string) : option Value :=
  match v with
  | undefined | null => None
  | Obj props => Some (default undefined (lookup_prop k props))
  | _ => Some undefined
  end.

End JS.

(** ** JSON text

    [JSON.stringify(v, null, 2)] and [JSON.parse] over byte strings (the
    token file is read as UTF-8 and the text is kept as its bytes). *)

Module JSON.

Import JS.

Definition dquote : ascii := "034"%char.
Definition backslash : ascii := "092"%char.
Definition nl : string := String "010"%char "".

Definition hex_digit (n : N) : ascii :=
  match String.get (N.to_nat n) "0123456789abcdef" with
  | Some c => c
  | None => "0"%char
  end.

(** One character of [QuoteJSONString]. *)
Definition escape_char (c : ascii) : string :=
  if Ascii.eqb c dquote then String backslash (String dquote "")
  else if Ascii.eqb c backslash then String backslash (String backslash "")
  else if Ascii.eqb c "008"%char then String backslash "b"
  else if Ascii.eqb c "012"%char then String backslash "f"
  else if Ascii.eqb c "010"%char then String backslash "n"
  else if Ascii.eqb c "013"%char then String backslash "r"
  else if Ascii.eqb c "009"%char then String backslash "t"
  else if (N_of_ascii c <? 32)%N then
    String backslash
      (String "u" (String "0" (String "0"
         (String (hex_digit (N_of_ascii c / 16))
            (String (hex_digit (N_of_ascii c mod 16)) "")))))
  else String c "".

Fixpoint escape (s : string) : string :=
  match s with
  | EmptyString => ""
  | String c r => escape_char c ++ escape r
  end.

Definition quote (s : string) : string :=
  String dquote (escape s ++ String dquote "").

(** [SerializeJSONProperty] with a gap of two spaces.  [None] is the
    [undefined] that [JSON.stringify(undefined)] returns; inside an array
    it prints as [null], and a property holding it is left out. *)
Fixpoint stringify_at (indent : string) (v : Value) : option string :=
  let inner := indent ++ "  " in
  match v with
  | undefined => None
  | null => Some "null"
  | Bool true => Some "true"
  | Bool false => Some "false"
  | Num t => Some t
  | Str s => Some (quote s)
  | Arr [] => Some "[]"
  | Arr elems =>
      Some ("[" ++ nl ++ inner
            ++ join ("," ++ nl ++ inner)
                 (List.map (fun e => default "null" (stringify_at inner e)) elems)
            ++ nl ++ indent ++ "]")
  | Obj props =>
      match omap (fun p => (fun t => quote (fst p) ++ ": " ++ t)
                             <$> stringify_at inner (snd p)) props with
      | [] => Some "{}"
      | partial =>
          Some ("{" ++ nl ++ inner ++ join ("," ++ nl ++ inner) partial
                ++ nl ++ indent ++ "}")
      end
  end.

(** [JSON.stringify(v, null, 2)] *)
Definition stringify (v : Value) : option string := stringify_at "" v.

(** *** Parsing *)

Definition is_ws (c : ascii) : bool :=
  (Ascii.eqb c " " || Ascii.eqb c "009" || Ascii.eqb c "010" || Ascii.eqb c "013")%bool.

Fixpoint skip_ws (s : string) : string :=
  match s with
  | String c r => if is_ws c then skip_ws r else s
  | EmptyString => s
  end.

Definition is_digit (c : ascii) : bool :=
  ((48 <=? N_of_ascii c) && (N_of_ascii c <=? 57))%N.

(** The longest prefix of digits, and what follows it. *)
Fixpoint take_digits (s : string) : string * string :=
  match s with
  | String c r =>
      if is_digit c then let '(d, rest) := take_digits r in (String c d, rest)
      else ("", s)
  | EmptyString => ("", "")
  end.

(** What is left of [s] after its prefix [p], when it starts with it. *)
Fixpoint strip_prefix (p s : string) : option string :=
  match p with
  | EmptyString => Some s
  | String a p' =>
      match s with
      | String b s' => if Ascii.eqb a b then strip_prefix p' s' else None
      | EmptyString => None
      end
  end.

(** A number token is [-? int frac? exp?]; each part is taken off the
    front of the text.  After a leading [0] the integer part is over. *)
Definition take_sign (s : string) : string * string :=
  match strip_prefix "-" s with
  | Some r => ("-", r)
  | None => ("", s)
  end.

Definition take_int (s : string) : option (string * string) :=
  match s with
  | String c r =>
      if Ascii.eqb c "0" then Some ("0", r)
      else if is_digit c then Some (take_digits s)
      else None
  | EmptyString => None
  end.

Definition take_frac (s : string) : option (string * string) :=
  match s with
  | String c r =>
      if Ascii.eqb c "." then
        let '(d, rest) := take_digits r in
        if String.eqb d "" then None else Some ("." ++ d, rest)
      else Some ("", s)
  | EmptyString => Some ("", s)
  end.

Definition take_exp (s : string) : option (string * string) :=
  match s with
  | String c r =>
      if (Ascii.eqb c "e" || Ascii.eqb c "E")%bool then
        let '(sg, r1) :=
          match r with
          | String c1 r' =>
              if (Ascii.eqb c1 "+" || Ascii.eqb c1 "-")%bool
              then (String c1 "", r') else ("", r)
          | EmptyString => ("", r)
          end in
        let '(d, rest) := take_digits r1 in
        if String.eqb d "" then None else Some (String c sg ++ d, rest)
      else Some ("", s)
  | EmptyString => Some ("", s)
  end.

Definition parse_number (s : string) : option (string * string) :=
  let '(sign, s1) := take_sign s in
  '(int, s2) ← take_int s1;
  '(frac, s3) ← take_frac s2;
  '(exp, s4) ← take_exp s3;
  Some (sign ++ int ++ frac ++ exp, s4).

Definition hex_value (c : ascii) : option N :=
  let n := N_of_ascii c in
  if ((48 <=? n) && (n <=? 57))%N then Some (n - 48)%N
  else if ((97 <=? n) && (n <=? 102))%N then Some (n - 87)%N
  else if ((65 <=? n) && (n <=? 70))%N then Some (n - 55)%N
  else None.

(** The UTF-8 bytes of a code unit written [\uXXXX] (a surrogate half is
    encoded on its own, as three bytes). *)
Definition utf8 (n : N) : string :=
  if (n <? 128)%N then String (ascii_of_N n) ""
  else if (n <? 2048)%N then
    String (ascii_of_N (192 + n / 64)) (String (ascii_of_N (128 + n mod 64)) "")
  else
    String (ascii_of_N (224 + n / 4096))
      (String (ascii_of_N (128 + (n / 64) mod 64))
         (String (ascii_of_N (128 + n mod 64)) "")).

Definition simple_escape (c : ascii) : option ascii :=
  if Ascii.eqb c dquote then Some dquote
  else if Ascii.eqb c backslash then Some backslash
  else if Ascii.eqb c "/" then Some "/"%char
  else if Ascii.eqb c "b" then Some "008"%char
  else if Ascii.eqb c "f" then Some "012"%char
  else if Ascii.eqb c "n" then Some "010"%char
  else if Ascii.eqb c "r" then Some "013"%char
  else if Ascii.eqb c "t" then Some "009"%char
  else None.

(** The characters of a string token after its opening quote, up to the
    closing one; the result is the string denoted and the text after it. *)
Fixpoint parse_string_body (s : string) : option (string * string) :=
  match s with
  | EmptyString => None
  | String c r =>
      if Ascii.eqb c dquote then Some ("", r)
      else if Ascii.eqb c backslash then
        match r with
        | String e r1 =>
            match simple_escape e with
            | Some ch =>
                '(body, rest) ← parse_string_body r1; Some (String ch body, rest)
            | None =>
                if Ascii.eqb e "u" then
                  match r1 with
                  | String h1 (String h2 (String h3 (String h4 r2))) =>
                      a ← hex_value h1; b ← hex_value h2;
                      c' ← hex_value h3; d ← hex_value h4;
                      '(body, rest) ← parse_string_body r2;
                      Some (utf8 (((a * 16 + b) * 16 + c') * 16 + d)%N ++ body, rest)
                  | _ => None
                  end
                else None
            end
        | EmptyString => None
        end
      else if (N_of_ascii c <? 32)%N then None
      else '(body, rest) ← parse_string_body r; Some (String c body, rest)
  end.

(** Values, array elements and object members.  Every recursive call
    is made after at least one character was read, so twice the length of
    the text is fuel enough. *)
Fixpoint parse_value (fuel : nat) (s : string) : option (Value * string) :=
  match fuel with
  | O => None
  | S f =>
      match skip_ws s with
      | EmptyString => None
      | String c r =>
          if Ascii.eqb c "{" then
            match skip_ws r with
            | String c1 r1 =>
                if Ascii.eqb c1 "}" then Some (Obj [], r1) else parse_members f [] r
            | EmptyString => None
            end
          else if Ascii.eqb c "[" then
            match skip_ws r with
            | String c1 r1 =>
                if Ascii.eqb c1 "]" then Some (Arr [], r1) else parse_elements f [] r
            | EmptyString => None
            end
          else if Ascii.eqb c dquote then
            '(body, rest) ← parse_string_body r; Some (Str body, rest)
          else if Ascii.eqb c "t" then
            rest ← strip_prefix "rue" r; Some (Bool true, rest)
          else if Ascii.eqb c "f" then
            rest ← strip_prefix "alse" r; Some (Bool false, rest)
          else if Ascii.eqb c "n" then
            rest ← strip_prefix "ull" r; Some (null, rest)
          else
            '(text, rest) ← parse_number (String c r); Some (Num text, rest)
      end
  end
with parse_elements (fuel : nat) (acc : list Value) (s : string)
  : option (Value * string) :=
  match fuel with
  | O => None
  | S f =>
      '(v, r) ← parse_value f s;
      match skip_ws r with
      | String c r1 =>
          if Ascii.eqb c "," then parse_elements f (acc ++ [v]) r1
          else if Ascii.eqb c "]" then Some (Arr (acc ++ [v]), r1)
          else None
      | EmptyString => None
      end
  end
with parse_members (fuel : nat) (acc : list (string * Value)) (s : string)
  : option (Value * string) :=
  match fuel with
  | O => None
  | S f =>
      match skip_ws s with
      | String q r =>
          if Ascii.eqb q dquote then
            '(k, r1) ← parse_string_body r;
            match skip_ws r1 with
            | String c r2 =>
                if Ascii.eqb c ":" then
                  '(v, r3) ← parse_value f r2;
                  match skip_ws r3 with
                  | String c3 r4 =>
                      if Ascii.eqb c3 "," then parse_members f (set_prop k v acc) r4
                      else if Ascii.eqb c3 "}" then Some (Obj (set_prop k v acc), r4)
                      else None
                  | EmptyString => None
                  end
                else None
            | EmptyString => None
            end
          else None
      | EmptyString => None
      end
  end.

(** [JSON.parse(text)]; [None] is the SyntaxError it throws. *)
Definition parse (text : string) : option Value :=
  '(v, rest) ← parse_value (2 * String.length text + 2) text;
  if String.eqb (skip_ws rest) "" then Some v else None.

End JSON.

(** ** The outside world *)

(** An HTTP response as axios presents it: [data] is the body, already
    parsed when it was JSON. *)
Record Response := mkResponse {
  status : Z;
  statusText : string;
  data : JS.Value
}.

(** What a request meets: no answer at all (the text is the message of
    the network error), or a response. *)
Inductive Reply :=
  | NoReply (reason : string)
  | Replied (r : Response).

(** [axios.post(url, body, { headers })] with a [URLSearchParams] body:
    the fields in the order they were added. *)
Record Request := mkRequest {
  url : string;
  body : list (string * string);
  headers : list (string * string)
}.

(** A [Date] object, through the getters the program calls (local time). *)
Record Date := mkDate {
  getTime : Z;
  getFullYear : Z;
  getMonth : Z;
  getDate : Z;
  getHours : Z;
  getMinutes : Z;
  getSeconds : Z
}.

(** A thrown [Error]: axios attaches the response to the errors it
    throws for a status outside 2xx; every other error has none. *)
Record JSError := mkError {
  message : string;
  response : option Response
}.

Inductive Job := CheckInJob | CheckOutJob.

(** A task armed by [cron.schedule(expression, callback, { timezone })]. *)
Record ScheduledTask := mkTask {
  expression : string;
  callback : Job;
  timezone : string
}.

Inductive Event :=
  | Post (req : Request)
  | ConsoleLog (args : list JS.Value)
  | ConsoleError (args : list JS.Value).

Record World := mkWorld {
  files : gmap string string;          (* path to content *)
  read_denied : gset string;           (* paths that cannot be opened for reading *)
  write_denied : gset string;          (* paths that cannot be written *)
  server : nat -> Request -> Reply;    (* the answer to the n-th request made *)
  clock : nat -> Date;                 (* the n-th reading of the clock *)
  clock_reads : nat;
  toLocaleString : Date -> string;
  trace : list Event;                  (* oldest first *)
  cron_table : list ScheduledTask      (* tasks armed so far, oldest first *)
}.

(** The requests sent so far, oldest first. *)
Definition requests (w : World) : list Request :=
  omap (fun ev => match ev with Post r => Some r | _ => None end) (trace w).

Definition requests_to (u : string) (w : World) : list Request :=
  List.filter (fun r => String.eqb (url r) u) (requests w).

Definition console_errors (w : World) : list (list JS.Value) :=
  omap (fun ev => match ev with ConsoleError a => Some a | _ => None end) (trace w).

Definition emit (ev : Event) (w : World) : World :=
  mkWorld (files w) (read_denied w) (write_denied w) (server w) (clock w)
    (clock_reads w) (toLocaleString w) (trace w ++ [ev]) (cron_table w).

Definition store (path content : string) (w : World) : World :=
  mkWorld (<[path := content]> (files w)) (read_denied w) (write_denied w)
    (server w) (clock w) (clock_reads w) (toLocaleString w) (trace w)
    (cron_table w).

Definition tick (w : World) : World :=
  mkWorld (files w) (read_denied w) (write_denied w) (server w) (clock w)
    (S (clock_reads w)) (toLocaleString w) (trace w) (cron_table w).

Definition arm (t : ScheduledTask) (w : World) : World :=
  mkWorld (files w) (read_denied w) (write_denied w) (server w) (clock w)
    (clock_reads w) (toLocaleString w) (trace w) (cron_table w ++ [t]).

(** ** Asynchronous computations *)

Inductive Outcome (A : Type) :=
  | Returned (a : A)
  | Thrown (e : JSError).
Arguments Returned {A} a.
Arguments Thrown {A} e.

Definition Async (A : Type) : Type := World -> Outcome A * World.

Definition ret {A} (a : A) : Async A := fun w => (Returned a, w).

Definition throw {A} (e : JSError) : Async A := fun w => (Thrown e, w).

Definition bind {A B} (c : Async A) (k : A -> Async B) : Async B :=
  fun w => match c w with
           | (Returned a, w') => k a w'
           | (Thrown e, w') => (Thrown e, w')
           end.

(** [try { body } catch (error) { handler }] *)
Definition try_catch {A} (body : Async A) (handler : JSError -> Async A) : Async A :=
  fun w => match body w with
           | (Returned a, w') => (Returned a, w')
           | (Thrown e, w') => handler e w'
           end.

#[global] Instance Async_ret : MRet Async := @ret.
#[global] Instance Async_bind : MBind Async := fun A B k c => bind c k.

(** [new Error(message)] *)
Definition Error (msg : string) : JSError := mkError msg None.

Definition result_of {A} (r : Outcome A * World) : Outcome A := fst r.
Definition world_after {A} (r : Outcome A * World) : World := snd r.

(** ** The platform calls the program makes *)

Definition quoted (s : string) : string := "'" ++ s ++ "'".

(** [fs.access(path)]: rejects when nothing is at [path]. *)
Definition fs_access (path : string) : Async unit :=
  fun w => match files w !! path with
           | Some _ => (Returned tt, w)
           | None =>
               (Thrown (Error ("ENOENT: no such file or directory, access "
                               ++ quoted path)), w)
           end.

(** [fs.readFile(path, 'utf8')] *)
Definition fs_readFile (path : string) : Async string :=
  fun w => match files w !! path with
           | None =>
               (Thrown (Error ("ENOENT: no such file or directory, open "
                               ++ quoted path)), w)
           | Some content =>
               if decide (path ∈ read_denied w)
               then (Thrown (Error ("EACCES: permission denied, open "
                                    ++ quoted path)), w)
               else (Returned content, w)
           end.

(** [fs.writeFile(path, data)]: replaces the whole content of the file, or
    creates it.  [data] is [None] for [undefined], which the call refuses. *)
Definition fs_writeFile (path : string) (data : option string) : Async unit :=
  fun w => match data with
           | None =>
               (Thrown (Error "The data argument must be of type string or an instance of Buffer, TypedArray, or DataView. Received undefined"), w)
           | Some content =>
               if decide (path ∈ write_denied w)
               then (Thrown (Error ("EACCES: permission denied, open "
                                    ++ quoted path)), w)
               else (Returned tt, store path content w)
           end.

(** [JSON.parse(text)] *)
Definition JSON_parse (text : string) : Async JS.Value :=
  match JSON.parse text with
  | Some v => ret v
  | None => throw (Error "Unexpected token in JSON")
  end.

(** Property read [v.k]. *)
Definition get_property (v : JS.Value) (k : string) : Async JS.Value :=
  match JS.get v k with
  | Some x => ret x
  | None =>
      throw (Error ("Cannot read properties of " ++ JS.ToString v
                    ++ " (reading " ++ quoted k ++ ")"))
  end.

(** [String(n)] for an integer. *)
Definition String_of (n : Z) : string := pretty n.

(** The default [validateStatus] of axios. *)
Definition validateStatus (s : Z) : bool := (200 <=? s) && (s <? 300).

(** [axios.post(url, body, { headers })]: the request is sent; a response
    with a status in 2xx is returned, any other is thrown inside an error
    that carries it, and no response at all is a thrown network error. *)
Definition axios_post (u : string) (b hs : list (string * string)) : Async Response :=
  fun w =>
    let req := mkRequest u b hs in
    let w' := emit (Post req) w in
    match server w (List.length (requests w)) req with
    | NoReply reason => (Thrown (mkError reason None), w')
    | Replied r =>
        if validateStatus (status r) then (Returned r, w')
        else (Thrown (mkError ("Request failed with status code "
                               ++ String_of (status r)) (Some r)), w')
    end.

(** [new Date()] *)
Definition new_Date : Async Date :=
  fun w => (Returned (clock w (clock_reads w)), tick w).

(** [new Date().toLocaleString()] *)
Definition new_Date_toLocaleString : Async string :=
  fun w => (Returned (toLocaleString w (clock w (clock_reads w))), tick w).

(** [params.append(name, value)] on a [URLSearchParams]. *)
Definition append_param (params : list (string * string)) (name value : string)
  : list (string * string) :=
  (params ++ [(name, value)])%list.

Definition console_log (args : list JS.Value) : Async unit :=
  fun w => (Returned tt, emit (ConsoleLog args) w).

Definition console_error (args : list JS.Value) : Async unit :=
  fun w => (Returned tt, emit (ConsoleError args) w).

Fixpoint repeat_char (c : ascii) (n : nat) : string :=
  match n with
  | O => ""
  | S m => String c (repeat_char c m)
  end.

(** [s.padStart(len, c)] for a one-character filler. *)
Definition padStart (len : nat) (c : ascii) (s : string) : string :=
  repeat_char c (len - String.length s) ++ s.

(** ** zoho_token_manager.js *)

Section TokenManager.

(** [process.env], after dotenv has loaded the [.env] file. *)
Variable env : gmap string string.

(** [process.env.NAME]: [undefined] when unset. *)
Definition process_env (name : string) : JS.Value :=
  match env !! name with
  | Some s => JS.Str s
  | None => JS.undefined
  end.

Definition CLIENT_ID : JS.Value := process_env "ZOHO_CLIENT_ID".
Definition CLIENT_SECRET : JS.Value := process_env "ZOHO_CLIENT_SECRET".
Definition REFRESH_TOKEN : JS.Value := process_env "ZOHO_REFRESH_TOKEN".
Definition TOKEN_FILE : string :=
  JS.ToString (JS.or_else (process_env "TOKEN_FILE") (JS.Str "access_token.json")).

Definition token_url : string := "https://accounts.zoho.eu/oauth/v2/token".

Definition refresh_params : list (string * string) :=
  [("refresh_token", JS.ToString REFRESH_TOKEN);
   ("client_id", JS.ToString CLIENT_ID);
   ("client_secret", JS.ToString CLIENT_SECRET);
   ("grant_type", "refresh_token")].

Definition form_headers : list (string * string) :=
  [("Content-Type", "application/x-www-form-urlencoded")].

Definition missing_env_message : string :=
  "Missing required environment variables: ZOHO_CLIENT_ID, ZOHO_CLIENT_SECRET, ZOHO_REFRESH_TOKEN".

(** The object literal [{ access_token: accessToken }]. *)
Definition token_record (accessToken : JS.Value) : JS.Value :=
  JS.Obj [("access_token", accessToken)].

Definition refreshAccessToken : Async JS.Value :=
  if negb (JS.truthy CLIENT_ID) || negb (JS.truthy CLIENT_SECRET)
     || negb (JS.truthy REFRESH_TOKEN)
  then throw (Error missing_env_message)
  else
    try_catch
      (response ← axios_post token_url refresh_params form_headers;
       if status response =? 200 then
         let tokenData := data response in
         accessToken ← get_property tokenData "access_token";
         fs_writeFile TOKEN_FILE (JSON.stringify (token_record accessToken));;
         mret accessToken
       else mret JS.undefined)
      (fun error =>
         match response error with
         | Some r =>
             throw (Error ("Token refresh failed: "
                           ++ JS.ToString (JS.or_else (data r) (JS.Str (statusText r)))))
         | None =>
             throw (Error ("Token refresh failed: " ++ message error))
         end).

Definition getAccessToken : Async JS.Value :=
  try_catch
    (fs_access TOKEN_FILE;;
     tokenFileContent ← fs_readFile TOKEN_FILE;
     tokenData ← JSON_parse tokenFileContent;
     get_property tokenData "access_token")
    (fun _ => refreshAccessToken).

End TokenManager.

(** ** The scheduling library *)

Module Cron.

Fixpoint split_acc (sep : ascii) (cur : string) (s : string) : list string :=
  match s with
  | EmptyString => [cur]
  | String c r =>
      if Ascii.eqb c sep then cur :: split_acc sep "" r
      else split_acc sep (cur ++ String c "") r
  end.

(** [s.split(sep)] for a one-character separator. *)
Definition split (sep : ascii) (s : string) : list string := split_acc sep "" s.

Fixpoint digits_value (acc : N) (s : string) : option N :=
  match s with
  | EmptyString => Some acc
  | String c r =>
      if JSON.is_digit c then digits_value (acc * 10 + (N_of_ascii c - 48))%N r
      else None
  end.

(** A non-empty run of decimal digits, as a number. *)
Definition number (s : string) : option N :=
  if String.eqb s "" then None else digits_value 0%N s.

Definition in_range (lo hi : N) (s : string) : bool :=
  match number s with
  | Some n => ((lo <=? n) && (n <=? hi))%N
  | None => false
  end.

(** [*], a value, or a range [a-b] within the bounds of the field. *)
Definition base_ok (lo hi : N) (b : string) : bool :=
  if String.eqb b "*" then true
  else match split "-" b with
       | [a] => in_range lo hi a
       | [a; z] =>
           in_range lo hi a && in_range lo hi z
           && match number a, number z with
              | Some x, Some y => (x <=? y)%N
              | _, _ => false
              end
       | _ => false
       end.

(** An item: a base, or [*/n] or [a-b/n] with a step of at least one. *)
Definition item_ok (lo hi : N) (item : string) : bool :=
  match split "/" item with
  | [b] => base_ok lo hi b
  | [b; step] =>
      (String.eqb b "*" || (2 <=? List.length (split "-" b))%nat) && base_ok lo hi b
      && match number step with
         | Some n => (1 <=? n)%N
         | None => false
         end
  | _ => false
  end.

(** A field: items separated by commas. *)
Definition field_ok (lo hi : N) (f : string) : bool :=
  forallb (item_ok lo hi) (split "," f).

(** Modelled from the spec: the scheduling library ([node-cron], which
    [attendance_manager.js] requires) is not among the sources.  The spec
    has each schedule expression "in a standard 5-field cron-like grammar
    (minute, hour, day-of-month, month, day-of-week)"; the bounds are the
    standard ones, and fields are separated by spaces. *)
Definition validate (expr : string) : bool :=
  match List.filter (fun f => negb (String.eqb f "")) (split " " expr) with
  | [minute; hour; dom; month; dow] =>
      field_ok 0 59 minute && field_ok 0 23 hour && field_ok 1 31 dom
      && field_ok 1 12 month && field_ok 0 7 dow
  | _ => false
  end.

(** Modelled from the spec: [cron.schedule(expression, callback,
    { timezone })] of the same library.  The spec has expressions
    "validated for syntactic correctness before being armed; an invalid
    expression must be rejected before the scheduler starts": the call
    throws on an expression that does not validate and arms the task
    otherwise. *)
Definition schedule (expr : string) (cb : Job) (tz : string) : Async unit :=
  fun w =>
    if validate expr then (Returned tt, arm (mkTask expr cb tz) w)
    else (Thrown (Error (expr ++ " is a invalid expression")), w).

End Cron.

(** ** attendance_manager.js *)

Section AttendanceManager.

Variable env : gmap string string.

Definition TIMEZONE : string :=
  JS.ToString (JS.or_else (process_env env "TIMEZONE") (JS.Str "Europe/Berlin")).
Definition CHECKIN_TIME : string :=
  JS.ToString (JS.or_else (process_env env "CHECKIN_TIME") (JS.Str "0 9 * * 1-5")).
Definition CHECKOUT_TIME : string :=
  JS.ToString (JS.or_else (process_env env "CHECKOUT_TIME") (JS.Str "0 18 * * 1-5")).

Definition attendance_url : string := "https://people.zoho.eu/people/api/attendance".

Definition two_digits (n : Z) : string := padStart 2 "0" (String_of n).

(** The template [`${day}/${month}/${year} ${hours}:${minutes}:${seconds}`]. *)
Definition format_time (now : Date) : string :=
  let day := two_digits (getDate now) in
  let month := two_digits (getMonth now + 1) in
  let year := getFullYear now in
  let hours := two_digits (getHours now) in
  let minutes := two_digits (getMinutes now) in
  let seconds := two_digits (getSeconds now) in
  day ++ "/" ++ month ++ "/" ++ String_of year ++ " "
  ++ hours ++ ":" ++ minutes ++ ":" ++ seconds.

Definition action_name (isCheckIn : bool) : string :=
  if isCheckIn then "CHECK IN" else "CHECK OUT".

(** [error.response?.data || error.message] *)
Definition error_detail (error : JSError) : JS.Value :=
  JS.or_else (match response error with
              | Some r => data r
              | None => JS.undefined
              end)
             (JS.Str (message error)).

Definition checkInOut (isCheckIn : bool) : Async JS.Value :=
  try_catch
    (accessToken ← getAccessToken env;
     let headers := [("Authorization", "Zoho-oauthtoken " ++ JS.ToString accessToken);
                     ("Content-Type", "application/x-www-form-urlencoded")] in
     now ← new_Date;
     let currentTime := format_time now in
     let payload := [("dateFormat", "dd/MM/yyyy HH:mm:ss")] in
     let payload := if isCheckIn then append_param payload "checkIn" currentTime
                    else append_param payload "checkOut" currentTime in
     response ← axios_post attendance_url payload headers;
     timestamp ← new_Date_toLocaleString;
     console_log [JS.Str ("[" ++ timestamp ++ "] " ++ action_name isCheckIn
                          ++ " - Status: " ++ String_of (status response))];;
     console_log [JS.Str ("Time sent: " ++ currentTime)];;
     console_log [JS.Str ("Response: "
                          ++ default "undefined" (JSON.stringify (data response)))];;
     mret (data response))
    (fun error =>
       timestamp ← new_Date_toLocaleString;
       console_error [JS.Str ("[" ++ timestamp ++ "] " ++ action_name isCheckIn
                              ++ " FAILED:");
                      error_detail error];;
       throw error).

Definition checkIn : Async JS.Value := checkInOut true.

Definition checkOut : Async JS.Value := checkInOut false.


Definition setupCronJobs : Async unit :=
  Cron.schedule CHECKIN_TIME CheckInJob TIMEZONE;;
  Cron.schedule CHECKOUT_TIME CheckOutJob TIMEZONE;;
  console_log [JS.Str "📅 Cron jobs scheduled:"];;
  console_log [JS.Str ("   - Check-in: " ++ CHECKIN_TIME)];;
  console_log [JS.Str ("   - Check-out: " ++ CHECKOUT_TIME)];;
  console_log [JS.Str ("   - Timezone: " ++ TIMEZONE)].

(** The signal handlers that [startScheduler] installs afterwards are
    left out: signals are not part of the world. *)
Definition startScheduler : Async unit :=
  setupCronJobs;;
  console_log [JS.Str "🚀 Attendance scheduler started"].

End AttendanceManager.

(** ** The process: [handleCommandLine] *)

(** [s.toLowerCase()] on UTF-8 text: the ASCII capitals, and the Kelvin
    sign (bytes 226 132 170), the only other character whose lower case
    is an ASCII letter.  Every other character is kept, so the result
    equals an ASCII word exactly when the JavaScript one does. *)
Fixpoint toLowerCase (s : string) : string :=
  match s with
  | EmptyString => EmptyString
  | String c r =>
      let n := N_of_ascii c in
      if ((65 <=? n) && (n <=? 90))%N then String (ascii_of_N (n + 32)) (toLowerCase r)
      else
        match r with
        | String c1 (String c2 r') =>
            if ((n =? 226) && (N_of_ascii c1 =? 132) && (N_of_ascii c2 =? 170))%N
            then String "k" (toLowerCase r')
            else String c (toLowerCase r)
        | _ => String c (toLowerCase r)
        end
  end.

(** [token.substring(0, 10)]: only a string has the method (the first
    ten bytes here, which are its first ten characters for ASCII text);
    [None] is the TypeError of the call on anything else. *)
Definition substring_0_10 (token : JS.Value) : option string :=
  match token with
  | JS.Str s => Some (String.substring 0 10 s)
  | _ => None
  end.

Definition substring_error (token : JS.Value) : JSError :=
  match token with
  | JS.undefined | JS.null =>
      Error ("Cannot read properties of " ++ JS.ToString token
             ++ " (reading 'substring')")
  | _ => Error "token.substring is not a function"
  end.

(** How a piece of the main program ends: it goes on with a value, it
    throws, or [process.exit(code)] has ended the process. *)
Inductive Step (A : Type) :=
  | Goes (a : A)
  | Raises (e : JSError)
  | Exit (code : Z).
Arguments Goes {A} a.
Arguments Raises {A} e.
Arguments Exit {A} code.

Definition Process (A : Type) : Type := World -> Step A * World.

Definition goes {A} (a : A) : Process A := fun w => (Goes a, w).

(** [process.exit(code)] *)
Definition process_exit {A} (code : Z) : Process A := fun w => (Exit code, w).

Definition and_then {A B} (c : Process A) (k : A -> Process B) : Process B :=
  fun w => match c w with
           | (Goes a, w') => k a w'
           | (Raises e, w') => (Raises e, w')
           | (Exit code, w') => (Exit code, w')
           end.

#[global] Instance Process_ret : MRet Process := @goes.
#[global] Instance Process_bind : MBind Process := fun A B k c => and_then c k.

(** A call of the program's own functions from the main program. *)
Definition run {A} (c : Async A) : Process A :=
  fun w => match c w with
           | (Returned a, w') => (Goes a, w')
           | (Thrown e, w') => (Raises e, w')
           end.

(** [promise.then(onFulfilled).catch(onRejected)]: [onRejected] receives
    the rejection of the promise, and also what [onFulfilled] throws.
    The callbacks run once the promise has settled; nothing else runs
    in between in the modes that use them. *)
Definition then_catch {A} (promise : Async A) (onFulfilled : A -> Process unit)
    (onRejected : JSError -> Process unit) : Process unit :=
  fun w => match promise w with
           | (Returned a, w1) =>
               match onFulfilled a w1 with
               | (Raises e, w2) => onRejected e w2
               | ended => ended
               end
           | (Thrown e, w1) => onRejected e w1
           end.

Definition help_text : string := "
📋 Zoho Attendance Manager Commands:

  node attendance_manager.js                 Start the cron scheduler (default)
  node attendance_manager.js checkin         Manual check-in
  node attendance_manager.js checkout        Manual check-out  
  node attendance_manager.js schedule        Start the cron scheduler
  node attendance_manager.js test            Test configuration and credentials
  node attendance_manager.js help            Show this help message

Environment Variables:
  CHECKIN_TIME     Cron schedule for check-in (default: 0 9 * * 1-5)
  CHECKOUT_TIME    Cron schedule for check-out (default: 0 18 * * 1-5)
  TIMEZONE         Timezone for schedules (default: Europe/Berlin)
            ".

Section CommandLine.

Variable env : gmap string string.

(** The body of the [test] case. *)
Definition test_configuration : Process unit :=
  run (console_log [JS.Str "🧪 Testing configuration..."]);;
  run (console_log [JS.Str ("CHECKIN_TIME: " ++ CHECKIN_TIME env)]);;
  run (console_log [JS.Str ("CHECKOUT_TIME: " ++ CHECKOUT_TIME env)]);;
  run (console_log [JS.Str ("TIMEZONE: " ++ TIMEZONE env)]);;
  (if Cron.validate (CHECKIN_TIME env)
   then run (console_log [JS.Str "✅ Check-in schedule is valid"])
   else run (console_log [JS.Str "❌ Check-in schedule is invalid"]));;
  (if Cron.validate (CHECKOUT_TIME env)
   then run (console_log [JS.Str "✅ Check-out schedule is valid"])
   else run (console_log [JS.Str "❌ Check-out schedule is invalid"]));;
  then_catch (getAccessToken env)
    (fun token =>
       run (console_log [JS.Str "✅ Token retrieval successful"]);;
       match substring_0_10 token with
       | Some preview =>
           run (console_log [JS.Str ("Token preview: " ++ preview ++ "...")]);;
           process_exit 0
       | None => fun w => (Raises (substring_error token), w)
       end)
    (fun error =>
       run (console_error [JS.Str "❌ Token retrieval failed:"; JS.Str (message error)]);;
       process_exit 1).

(** [handleCommandLine()], with [args] for [process.argv.slice(2)].  A
    result [Goes tt] is the function returning with the process left
    alive (by the timers of the armed tasks); [Raises] is an exception
    that nothing catches. *)
Definition handleCommandLine (args : list string) : Process unit :=
  match args with
  | [] => run (startScheduler env)
  | first :: _ =>
      let command := toLowerCase first in
      if (String.eqb command "checkin" || String.eqb command "check-in")%bool then
        run (console_log [JS.Str "🕘 Manual check-in initiated..."]);;
        then_catch (checkIn env)
          (fun _ =>
             run (console_log [JS.Str "✅ Check-in completed successfully"]);;
             process_exit 0)
          (fun error =>
             run (console_error [JS.Str "❌ Check-in failed:"; JS.Str (message error)]);;
             process_exit 1)
      else if (String.eqb command "checkout" || String.eqb command "check-out")%bool then
        run (console_log [JS.Str "🕐 Manual check-out initiated..."]);;
        then_catch (checkOut env)
          (fun _ =>
             run (console_log [JS.Str "✅ Check-out completed successfully"]);;
             process_exit 0)
          (fun error =>
             run (console_error [JS.Str "❌ Check-out failed:"; JS.Str (message error)]);;
             process_exit 1)
      else if (String.eqb command "schedule" || String.eqb command "start")%bool then
        run (startScheduler env)
      else if String.eqb command "test" then test_configuration
      else if (String.eqb command "help" || String.eqb command "--help"
               || String.eqb command "-h")%bool then
        run (console_log [JS.Str help_text]);;
        process_exit 0
      else
        run (console_error [JS.Str ("❌ Unknown command: " ++ command)]);;
        run (console_log
               [JS.Str ("Use " ++ String JSON.dquote "node attendance_manager.js help"
                        ++ String JSON.dquote " for available commands")]);;
        process_exit 1
  end.

End CommandLine.

(** * Notions the properties are stated with *)

(** ** On the parser *)

(** What a parse with fuel [f] promises: text was consumed, and any
    fuel from twice the number of characters consumed gives the same
    result. *)
Definition value_ok (f : nat) : Prop :=
  forall s v r, JSON.parse_value f s = Some (v, r) ->
    (String.length r < String.length s)%nat
    /\ forall f', (2 * (String.length s - String.length r) <= f' + 1)%nat ->
                  JSON.parse_value f' s = Some (v, r).

Definition elements_ok (f : nat) : Prop :=
  forall acc s v r, JSON.parse_elements f acc s = Some (v, r) ->
    (String.length r < String.length s)%nat
    /\ forall f', (2 * (String.length s - String.length r) <= f')%nat ->
                  JSON.parse_elements f' acc s = Some (v, r).

Definition members_ok (f : nat) : Prop :=
  forall acc s v r, JSON.parse_members f acc s = Some (v, r) ->
    (String.length r < String.length s)%nat
    /\ forall f', (2 * (String.length s - String.length r) <= f')%nat ->
                  JSON.parse_members f' acc s = Some (v, r).

(** ** On the token manager *)

(** What [JSON.stringify({ access_token: v }, null, 2)] gives: an object
    with the one member, or [{}] when [v] has no JSON text. *)
Definition record_text (v : JS.Value) : string :=
  match JSON.stringify_at "  " v with
  | Some t =>
      "{" ++ JSON.nl ++ "  " ++ JSON.quote "access_token" ++ ": " ++ t
      ++ JSON.nl ++ "}"
  | None => "{}"
  end.

(** The three secrets are set and not empty. *)
Definition secrets_present (env : gmap string string) : bool :=
  JS.truthy (CLIENT_ID env) && JS.truthy (CLIENT_SECRET env)
  && JS.truthy (REFRESH_TOKEN env).

(** The one request a refresh sends. *)
Definition refresh_request (env : gmap string string) : Request :=
  mkRequest token_url (refresh_params env) form_headers.

Definition refresh_failure (detail : string) : JSError :=
  Error ("Token refresh failed: " ++ detail).

(** A refresh that fails at the network: no reply, or a reply with a
    status outside 2xx. *)
Definition refresh_refused (env : gmap string string) (w : World) : Prop :=
  (exists reason,
      server w (List.length (requests w)) (refresh_request env) = NoReply reason)
  \/ (exists r,
        server w (List.length (requests w)) (refresh_request env) = Replied r
        /\ ~ 200 <= status r < 300).

(** The value has no [access_token] property of its own. *)
Definition lacks_access_token (v : JS.Value) : Prop :=
  match v with
  | JS.Obj props => JS.lookup_prop "access_token" props = None
  | _ => True
  end.

(** The names of the properties of a value. *)
Definition keys (v : JS.Value) : list string :=
  match v with
  | JS.Obj props => List.map fst props
  | _ => []
  end.

(** The same world at another moment: only the clock differs. *)
Definition at_time (now : Date) (w : World) : World :=
  mkWorld (files w) (read_denied w) (write_denied w) (server w) (fun _ => now)
    (clock_reads w) (toLocaleString w) (trace w) (cron_table w).

(** The token file cannot serve a value: it is absent or unreadable, or
    its content is not JSON or is [null]. *)
Definition cache_miss (env : gmap string string) (w : World) : Prop :=
  match files w !! TOKEN_FILE env with
  | None => True
  | Some content =>
      TOKEN_FILE env ∈ read_denied w
      \/ match JSON.parse content with
         | None => True
         | Some tokenData => JS.get tokenData "access_token" = None
         end
  end.

(** What the token manager reads of the world: the files and their
    permissions, and the token endpoint at its next request. *)
Definition same_inputs (w w' : World) : Prop :=
  files w = files w' /\ read_denied w = read_denied w'
  /\ write_denied w = write_denied w' /\ server w = server w'
  /\ requests w = requests w'.

(** ** On the attendance manager *)

(** The request a mark sends, for the value [accessToken] and the clock
    reading [now]. *)
Definition attendance_request (isCheckIn : bool) (accessToken : JS.Value) (now : Date)
  : Request :=
  mkRequest attendance_url
    [("dateFormat", "dd/MM/yyyy HH:mm:ss");
     (if isCheckIn then "checkIn" else "checkOut", format_time now)]
    [("Authorization", "Zoho-oauthtoken " ++ JS.ToString accessToken);
     ("Content-Type", "application/x-www-form-urlencoded")].

Definition failure_line (isCheckIn : bool) (w : World) : string :=
  "[" ++ toLocaleString w (clock w (clock_reads w)) ++ "] "
  ++ action_name isCheckIn ++ " FAILED:".

(** How [checkInOut] ends when the attendance call fails with [err]
    in the world [w2] left by the request. *)
Definition mark_failed (isCheckIn : bool) (err : JSError) (w2 : World)
  : Outcome JS.Value * World :=
  (Thrown err,
   emit (ConsoleError [JS.Str (failure_line isCheckIn w2); error_detail err]) (tick w2)).

(** The error axios throws for a response with a status outside 2xx. *)
Definition status_error (r : Response) : JSError :=
  mkError ("Request failed with status code " ++ String_of (status r)) (Some r).

(** The tasks [setupCronJobs] asks for. *)
Definition checkin_task (env : gmap string string) : ScheduledTask :=
  mkTask (CHECKIN_TIME env) CheckInJob (TIMEZONE env).

Definition checkout_task (env : gmap string string) : ScheduledTask :=
  mkTask (CHECKOUT_TIME env) CheckOutJob (TIMEZONE env).

(** Two worlds that differ at most in what was printed. *)
Definition same_but_console (w w' : World) : Prop :=
  files w = files w' /\ read_denied w = read_denied w'
  /\ write_denied w = write_denied w' /\ server w = server w'
  /\ clock w = clock w' /\ clock_reads w = clock_reads w'
  /\ toLocaleString w = toLocaleString w'
  /\ requests w = requests w' /\ cron_table w = cron_table w'.

(** ** On the command line *)

(** The first arguments that make the program act. *)
Definition action_commands : list string :=
  ["checkin"; "check-in"; "checkout"; "check-out"; "schedule"; "start"; "test"].

Definition help_commands : list string := ["help"; "--help"; "-h"].

(** No argument, or [schedule] or [start] as the first one. *)
Definition scheduler_mode (args : list string) : Prop :=
  match args with
  | [] => True
  | first :: _ => toLowerCase first = "schedule" \/ toLowerCase first = "start"
  end.

(** The pattern [dd/MM/yyyy HH:mm:ss] as the spec words it: day, month
    (from 1), four-digit year, hours, minutes and seconds, every field
    but the year on two digits.  This is the reference that
    [format_time], taken from the source, is compared with. *)
Module Pattern.

Definition digit (n : Z) : ascii := ascii_of_N (48 + Z.to_N n).

Definition dd (n : Z) : string :=
  String (digit (n / 10)) (String (digit (n mod 10)) "").

Definition yyyy (n : Z) : string :=
  String (digit (n / 1000)) (String (digit (n / 100 mod 10)) (dd (n mod 100))).

Definition text (d : Date) : string :=
  dd (getDate d) ++ "/" ++ dd (getMonth d + 1) ++ "/" ++ yyyy (getFullYear d)
  ++ " " ++ dd (getHours d) ++ ":" ++ dd (getMinutes d) ++ ":" ++ dd (getSeconds d).

End Pattern.

(** A local time a [Date] can show, in a year of four digits. *)
Definition calendar_time (d : Date) : Prop :=
  1 <= getDate d <= 31 /\ 0 <= getMonth d <= 11
  /\ 1000 <= getFullYear d <= 9999
  /\ 0 <= getHours d <= 23 /\ 0 <= getMinutes d <= 59 /\ 0 <= getSeconds d <= 59.

(** ** Sample worlds *)

Module Sample.

Definition env : gmap string string :=
  <["ZOHO_CLIENT_ID" := "1000.CLIENT"]>
    (<["ZOHO_CLIENT_SECRET" := "s3cret"]>
       (<["ZOHO_REFRESH_TOKEN" := "1000.refresh"]> ∅)).

(** No refresh secret configured. *)
Definition env_without_refresh_secret : gmap string string :=
  <["ZOHO_CLIENT_ID" := "1000.CLIENT"]> (<["ZOHO_CLIENT_SECRET" := "s3cret"]> ∅).

(** Sunday 2 November 2025, 09:03:07 local time. *)
Definition morning : Date := mkDate 1762074187000 2025 10 2 9 3 7.

Definition en_US (d : Date) : string :=
  String_of (getMonth d + 1) ++ "/" ++ String_of (getDate d) ++ "/"
  ++ String_of (getFullYear d) ++ ", " ++ String_of (getHours d) ++ ":"
  ++ two_digits (getMinutes d) ++ ":" ++ two_digits (getSeconds d).

(** A fresh process: nothing sent or printed, no task armed. *)
Definition world (fs : gmap string string) (srv : nat -> Request -> Reply)
    (now : Date) : World :=
  mkWorld fs ∅ ∅ srv (fun _ => now) 0 en_US [] [].

Definition token_file (content : string) : gmap string string :=
  <["access_token.json" := content]> ∅.

Definition ok (d : JS.Value) : Reply := Replied (mkResponse 200 "OK" d).

(** A token endpoint that issues [fresh] for an hour, and an attendance
    endpoint that accepts the mark. *)
Definition issuing (fresh : string) (n : nat) (req : Request) : Reply :=
  if String.eqb (url req) token_url
  then ok (JS.Obj [("access_token", JS.Str fresh); ("expires_in", JS.Num "3600")])
  else ok (JS.Obj [("status", JS.Str "success")]).

(** A server that answers every request with the same response. *)
Definition answering (r : Response) (n : nat) (req : Request) : Reply := Replied r.

End Sample.

(** A record that outlives its hour. *)
Module Expiry.

(** A token endpoint that issues [first] to the first request and
    [second] to every later one, each declared valid for an hour. *)
Definition server (n : nat) (req : Request) : Reply :=
  Sample.ok (JS.Obj [("access_token", JS.Str (if Nat.eqb n 0 then "first" else "second"));
                     ("expires_in", JS.Num "3600")]).

(** A fresh process with no token file, at 09:03:07. *)
Definition w0 : World := Sample.world ∅ server Sample.morning.

(** After the first [getAccessToken]. *)
Definition w1 : World := world_after (getAccessToken Sample.env w0).

(** Two hours later, the same day. *)
Definition later : Date := mkDate (1762074187000 + 7200000) 2025 10 2 11 3 7.

Definition w2 : World := at_time later w1.

(** Five minutes, in milliseconds. *)
Definition refreshBuffer : Z := 5 * 60 * 1000.

(** The expiry of the record issued at [Sample.morning] for 3600 s. *)
Definition expiresAt : Z := getTime Sample.morning + 3600 * 1000.

End Expiry.

(** * Properties *)

(** ** The parser *)

(** *** Every parse consumes text, and fuel never decides *)

Lemma skip_ws_length (s : string) :
  (String.length (JSON.skip_ws s) <= String.length s)%nat.
Proof.
  induction s as [|c s IH]; cbn [JSON.skip_ws]; [lia|].
  destruct (JSON.is_ws c); cbn [String.length] in *; lia.
Qed.

Lemma skip_ws_cons (s : string) (c : ascii) (r : string) :
  JSON.skip_ws s = String c r -> (String.length r < String.length s)%nat.
Proof.
  intros H. pose proof (skip_ws_length s) as Hle. rewrite H in Hle.
  cbn [String.length] in Hle. lia.
Qed.

Lemma strip_prefix_length (p : string) :
  forall s r, JSON.strip_prefix p s = Some r ->
              (String.length r <= String.length s)%nat.
Proof.
  induction p as [|a p IH]; intros s r H; cbn [JSON.strip_prefix] in H.
  - injection H as <-. lia.
  - destruct s as [|b s]; [discriminate|].
    destruct (Ascii.eqb a b); [|discriminate].
    apply IH in H. cbn [String.length]. lia.
Qed.

Lemma take_digits_length (s : string) :
  forall d r, JSON.take_digits s = (d, r) ->
              (String.length r <= String.length s)%nat.
Proof.
  induction s as [|c s IH]; intros d r H; cbn [JSON.take_digits] in H.
  - injection H as _ <-. lia.
  - destruct (JSON.is_digit c).
    + destruct (JSON.take_digits s) as [d0 r0]. injection H as _ <-.
      specialize (IH _ _ eq_refl). cbn [String.length]. lia.
    + injection H as _ <-. lia.
Qed.

Lemma take_sign_length (s sg r : string) :
  JSON.take_sign s = (sg, r) -> (String.length r <= String.length s)%nat.
Proof.
  unfold JSON.take_sign.
  destruct (JSON.strip_prefix "-" s) as [r0|] eqn:H; intros [= _ <-]; [|lia].
  exact (strip_prefix_length _ _ _ H).
Qed.

Lemma take_int_length (s d r : string) :
  JSON.take_int s = Some (d, r) -> (String.length r < String.length s)%nat.
Proof.
  unfold JSON.take_int. destruct s as [|c s]; [discriminate|].
  destruct (Ascii.eqb c "0").
  - intros [= _ <-]. cbn [String.length]. lia.
  - destruct (JSON.is_digit c) eqn:Hc; [|discriminate].
    cbn [JSON.take_digits]. rewrite Hc.
    destruct (JSON.take_digits s) as [d0 r0] eqn:H. intros [= _ <-].
    apply take_digits_length in H. cbn [String.length]. lia.
Qed.

Lemma take_frac_length (s d r : string) :
  JSON.take_frac s = Some (d, r) -> (String.length r <= String.length s)%nat.
Proof.
  unfold JSON.take_frac. destruct s as [|c s]; [intros [= _ <-]; lia|].
  destruct (Ascii.eqb c ".").
  - destruct (JSON.take_digits s) as [d0 r0] eqn:H.
    destruct (String.eqb d0 ""); [discriminate|]. intros [= _ <-].
    apply take_digits_length in H. cbn [String.length]. lia.
  - intros [= _ <-]. lia.
Qed.

Lemma take_exp_length (s d r : string) :
  JSON.take_exp s = Some (d, r) -> (String.length r <= String.length s)%nat.
Proof.
  unfold JSON.take_exp. destruct s as [|c s]; [intros [= _ <-]; lia|].
  destruct (Ascii.eqb c "e" || Ascii.eqb c "E")%bool; [|intros [= _ <-]; lia].
  destruct s as [|c1 r'].
  - cbn. discriminate.
  - destruct (Ascii.eqb c1 "+" || Ascii.eqb c1 "-")%bool.
    + destruct (JSON.take_digits r') as [d0 r0] eqn:H.
      destruct (String.eqb d0 ""); [discriminate|]. intros [= _ <-].
      apply take_digits_length in H. cbn [String.length]. lia.
    + destruct (JSON.take_digits (String c1 r')) as [d0 r0] eqn:H.
      destruct (String.eqb d0 ""); [discriminate|]. intros [= _ <-].
      apply take_digits_length in H. cbn [String.length] in *. lia.
Qed.

Lemma parse_number_length (s t r : string) :
  JSON.parse_number s = Some (t, r) -> (String.length r < String.length s)%nat.
Proof.
  unfold JSON.parse_number.
  destruct (JSON.take_sign s) as [sg s1] eqn:H1. apply take_sign_length in H1.
  destruct (JSON.take_int s1) as [[i s2]|] eqn:H2; [|discriminate].
  apply take_int_length in H2. cbn [mbind option_bind].
  destruct (JSON.take_frac s2) as [[fr s3]|] eqn:H3; [|discriminate].
  apply take_frac_length in H3. cbn [mbind option_bind].
  destruct (JSON.take_exp s3) as [[ex s4]|] eqn:H4; [|discriminate].
  apply take_exp_length in H4. cbn [mbind option_bind].
  intros [= _ <-]. lia.
Qed.

Lemma parse_string_body_length_le (n : nat) :
  forall s b r, (String.length s <= n)%nat ->
                JSON.parse_string_body s = Some (b, r) ->
                (String.length r < String.length s)%nat.
Proof.
  induction n as [|n IH]; intros s b r Hn H.
  - destruct s; [discriminate|]. cbn [String.length] in Hn. lia.
  - destruct s as [|c s]; [discriminate|].
    cbn [JSON.parse_string_body] in H. cbn [String.length] in *.
    destruct (Ascii.eqb c JSON.dquote); [injection H as _ <-; lia|].
    destruct (Ascii.eqb c JSON.backslash).
    + destruct s as [|e r1]; [discriminate|]. cbn [String.length] in *.
      destruct (JSON.simple_escape e).
      * destruct (JSON.parse_string_body r1) as [[b0 r0]|] eqn:E; [|discriminate].
        cbn in H. injection H as _ <-.
        apply IH in E; lia.
      * destruct (Ascii.eqb e "u"); [|discriminate].
        destruct r1 as [|h1 [|h2 [|h3 [|h4 r2]]]]; try discriminate.
        destruct (JSON.hex_value h1); [|discriminate].
        destruct (JSON.hex_value h2); [|discriminate].
        destruct (JSON.hex_value h3); [|discriminate].
        destruct (JSON.hex_value h4); [|discriminate].
        cbn [mbind option_bind] in H.
        destruct (JSON.parse_string_body r2) as [[b0 r0]|] eqn:E; [|discriminate].
        cbn in H. injection H as _ <-.
        cbn [String.length] in *. apply IH in E; lia.
    + destruct (N.ltb _ _); [discriminate|].
      destruct (JSON.parse_string_body s) as [[b0 r0]|] eqn:E; [|discriminate].
      cbn in H. injection H as _ <-.
      apply IH in E; lia.
Qed.

Lemma parse_string_body_length (s b r : string) :
  JSON.parse_string_body s = Some (b, r) ->
  (String.length r < String.length s)%nat.
Proof. apply (parse_string_body_length_le (String.length s)). lia. Qed.

Ltac refuel :=
  let f' := fresh "f'" in
  let Hf' := fresh "Hf'" in
  intros f' Hf'; destruct f' as [|f']; [lia|];
  cbn [JSON.parse_value JSON.parse_elements JSON.parse_members].

Lemma value_step (f : nat) :
  elements_ok f -> members_ok f -> value_ok (S f).
Proof.
  intros IHe IHm s v r H.
  cbn [JSON.parse_value] in H.
  destruct (JSON.skip_ws s) as [|c r0] eqn:Hs; [discriminate|].
  pose proof (skip_ws_cons _ _ _ Hs) as Hr0.
  destruct (Ascii.eqb c "{") eqn:E1.
  { destruct (JSON.skip_ws r0) as [|c1 r1] eqn:Hs1; [discriminate|].
    pose proof (skip_ws_cons _ _ _ Hs1) as Hr1.
    destruct (Ascii.eqb c1 "}") eqn:E2.
    - injection H as <- <-. split; [lia|].
      refuel. rewrite Hs, E1, Hs1, E2. reflexivity.
    - apply IHm in H as [Hlt Hfuel]. split; [lia|].
      refuel. rewrite Hs, E1, Hs1, E2. apply Hfuel. lia. }
  destruct (Ascii.eqb c "[") eqn:E2.
  { destruct (JSON.skip_ws r0) as [|c1 r1] eqn:Hs1; [discriminate|].
    pose proof (skip_ws_cons _ _ _ Hs1) as Hr1.
    destruct (Ascii.eqb c1 "]") eqn:E3.
    - injection H as <- <-. split; [lia|].
      refuel. rewrite Hs, E1, E2, Hs1, E3. reflexivity.
    - apply IHe in H as [Hlt Hfuel]. split; [lia|].
      refuel. rewrite Hs, E1, E2, Hs1, E3. apply Hfuel. lia. }
  destruct (Ascii.eqb c JSON.dquote) eqn:E3.
  { destruct (JSON.parse_string_body r0) as [[b r1]|] eqn:Hb; [|discriminate].
    cbn in H. injection H as <- <-.
    apply parse_string_body_length in Hb as Hlt. split; [lia|].
    refuel. rewrite Hs, E1, E2, E3, Hb. reflexivity. }
  destruct (Ascii.eqb c "t") eqn:E4.
  { destruct (JSON.strip_prefix "rue" r0) as [r1|] eqn:Hp; [|discriminate].
    cbn in H. injection H as <- <-.
    apply strip_prefix_length in Hp as Hlt. split; [lia|].
    refuel. rewrite Hs, E1, E2, E3, E4, Hp. reflexivity. }
  destruct (Ascii.eqb c "f") eqn:E5.
  { destruct (JSON.strip_prefix "alse" r0) as [r1|] eqn:Hp; [|discriminate].
    cbn in H. injection H as <- <-.
    apply strip_prefix_length in Hp as Hlt. split; [lia|].
    refuel. rewrite Hs, E1, E2, E3, E4, E5, Hp. reflexivity. }
  destruct (Ascii.eqb c "n") eqn:E6.
  { destruct (JSON.strip_prefix "ull" r0) as [r1|] eqn:Hp; [|discriminate].
    cbn in H. injection H as <- <-.
    apply strip_prefix_length in Hp as Hlt. split; [lia|].
    refuel. rewrite Hs, E1, E2, E3, E4, E5, E6, Hp. reflexivity. }
  destruct (JSON.parse_number (String c r0)) as [[t r1]|] eqn:Hn; [|discriminate].
  cbn in H. injection H as <- <-.
  apply parse_number_length in Hn as Hlt. cbn [String.length] in Hlt.
  split; [lia|].
  refuel. rewrite Hs, E1, E2, E3, E4, E5, E6, Hn. reflexivity.
Qed.

Lemma elements_step (f : nat) :
  value_ok f -> elements_ok f -> elements_ok (S f).
Proof.
  intros IHv IHe acc s v r H.
  cbn [JSON.parse_elements] in H.
  destruct (JSON.parse_value f s) as [[x r0]|] eqn:Hx; [|discriminate].
  cbn [mbind option_bind] in H.
  apply IHv in Hx as [Hlt0 Hfuel0].
  destruct (JSON.skip_ws r0) as [|c r1] eqn:Hs; [discriminate|].
  pose proof (skip_ws_cons _ _ _ Hs) as Hr1.
  destruct (Ascii.eqb c ",") eqn:E1.
  - apply IHe in H as [Hlt Hfuel]. split; [lia|].
    refuel. rewrite Hfuel0 by lia. cbn [mbind option_bind].
    rewrite Hs, E1. apply Hfuel. lia.
  - destruct (Ascii.eqb c "]") eqn:E2; [|discriminate].
    injection H as <- <-. split; [lia|].
    refuel. rewrite Hfuel0 by lia. cbn [mbind option_bind].
    rewrite Hs, E1, E2. reflexivity.
Qed.

Lemma members_step (f : nat) :
  value_ok f -> members_ok f -> members_ok (S f).
Proof.
  intros IHv IHm acc s v r H.
  cbn [JSON.parse_members] in H.
  destruct (JSON.skip_ws s) as [|q r0] eqn:Hs; [discriminate|].
  pose proof (skip_ws_cons _ _ _ Hs) as Hr0.
  destruct (Ascii.eqb q JSON.dquote) eqn:E0; [|discriminate].
  destruct (JSON.parse_string_body r0) as [[k r1]|] eqn:Hk; [|discriminate].
  cbn [mbind option_bind] in H.
  apply parse_string_body_length in Hk as Hr1.
  destruct (JSON.skip_ws r1) as [|c r2] eqn:Hs1; [discriminate|].
  pose proof (skip_ws_cons _ _ _ Hs1) as Hr2.
  destruct (Ascii.eqb c ":") eqn:E1; [|discriminate].
  destruct (JSON.parse_value f r2) as [[x r3]|] eqn:Hx; [|discriminate].
  cbn [mbind option_bind] in H.
  apply IHv in Hx as [Hlt3 Hfuel3].
  destruct (JSON.skip_ws r3) as [|c3 r4] eqn:Hs3; [discriminate|].
  pose proof (skip_ws_cons _ _ _ Hs3) as Hr4.
  destruct (Ascii.eqb c3 ",") eqn:E2.
  - apply IHm in H as [Hlt Hfuel]. split; [lia|].
    refuel. rewrite Hs, E0, Hk. cbn [mbind option_bind].
    rewrite Hs1, E1, Hfuel3 by lia. cbn [mbind option_bind].
    rewrite Hs3, E2. apply Hfuel. lia.
  - destruct (Ascii.eqb c3 "}") eqn:E3; [|discriminate].
    injection H as <- <-. split; [lia|].
    refuel. rewrite Hs, E0, Hk. cbn [mbind option_bind].
    rewrite Hs1, E1, Hfuel3 by lia. cbn [mbind option_bind].
    rewrite Hs3, E2, E3. reflexivity.
Qed.

Lemma parse_fuel_bound (f : nat) : value_ok f /\ elements_ok f /\ members_ok f.
Proof.
  induction f as [|f (IHv & IHe & IHm)].
  - repeat split; intros; discriminate.
  - split; [|split].
    + apply value_step; assumption.
    + apply elements_step; assumption.
    + apply members_step; assumption.
Qed.

(** Fuel never decides: a text that parses with some fuel parses, to
    the same value, with the fuel [JSON.parse] gives itself. *)
Lemma parse_fuel_enough (f : nat) (text : string) (v : JS.Value) (r : string) :
  JSON.parse_value f text = Some (v, r) ->
  JSON.parse_value (2 * String.length text + 2) text = Some (v, r).
Proof.
  intros H. destruct (parse_fuel_bound f) as [IHv _].
  apply IHv in H as [_ Hfuel]. apply Hfuel. lia.
Qed.

(** A text that some fuel parses completely is valid for [JSON.parse]. *)
Lemma parse_complete (f : nat) (text : string) (v : JS.Value) (r : string) :
  JSON.parse_value f text = Some (v, r) ->
  JSON.skip_ws r = "" ->
  JSON.parse text = Some v.
Proof.
  intros H Hr. unfold JSON.parse.
  rewrite (parse_fuel_enough f text v r H). cbn [mbind option_bind].
  rewrite Hr. reflexivity.
Qed.

(** *** What a parse can produce *)

(** [JSON.parse] never produces [undefined]. *)
Lemma parse_elements_array (fuel : nat) :
  forall acc s v r, JSON.parse_elements fuel acc s = Some (v, r) ->
                    exists elems, v = JS.Arr elems.
Proof.
  induction fuel as [|f IH]; intros acc s v r H; [discriminate|].
  cbn [JSON.parse_elements] in H.
  destruct (JSON.parse_value f s) as [[x r0]|]; [|discriminate].
  cbn in H.
  destruct (JSON.skip_ws r0) as [|c r1]; [discriminate|].
  destruct (Ascii.eqb c ","); [exact (IH _ _ _ _ H)|].
  destruct (Ascii.eqb c "]"); [|discriminate].
  injection H as <- _. eauto.
Qed.

Lemma parse_members_object (fuel : nat) :
  forall acc s v r, JSON.parse_members fuel acc s = Some (v, r) ->
                    exists props, v = JS.Obj props.
Proof.
  induction fuel as [|f IH]; intros acc s v r H; [discriminate|].
  cbn [JSON.parse_members] in H.
  destruct (JSON.skip_ws s) as [|q0 r0]; [discriminate|].
  destruct (Ascii.eqb q0 JSON.dquote); [|discriminate].
  destruct (JSON.parse_string_body r0) as [[k r1]|]; [|discriminate].
  cbn in H.
  destruct (JSON.skip_ws r1) as [|c r2]; [discriminate|].
  destruct (Ascii.eqb c ":"); [|discriminate].
  destruct (JSON.parse_value f r2) as [[x r3]|]; [|discriminate].
  cbn in H.
  destruct (JSON.skip_ws r3) as [|c3 r4]; [discriminate|].
  destruct (Ascii.eqb c3 ","); [exact (IH _ _ _ _ H)|].
  destruct (Ascii.eqb c3 "}"); [|discriminate].
  injection H as <- _. eauto.
Qed.

Lemma parse_value_defined (fuel : nat) (s : string) (v : JS.Value) (r : string) :
  JSON.parse_value fuel s = Some (v, r) -> v <> JS.undefined.
Proof.
  destruct fuel as [|f]; [discriminate|].
  cbn [JSON.parse_value].
  destruct (JSON.skip_ws s) as [|c r0]; [discriminate|].
  repeat match goal with
         | |- (if ?b then _ else _) = _ -> _ => destruct b
         end.
  - destruct (JSON.skip_ws r0) as [|c1 r1]; [discriminate|].
    destruct (Ascii.eqb c1 "}").
    + intros [= <- _]. discriminate.
    + intros H. apply parse_members_object in H as [props ->]. discriminate.
  - destruct (JSON.skip_ws r0) as [|c1 r1]; [discriminate|].
    destruct (Ascii.eqb c1 "]").
    + intros [= <- _]. discriminate.
    + intros H. apply parse_elements_array in H as [elems ->]. discriminate.
  - destruct (JSON.parse_string_body r0) as [[b r1]|]; cbn; [|discriminate].
    intros [= <- _]. discriminate.
  - destruct (JSON.strip_prefix "rue" r0); cbn; [|discriminate].
    intros [= <- _]. discriminate.
  - destruct (JSON.strip_prefix "alse" r0); cbn; [|discriminate].
    intros [= <- _]. discriminate.
  - destruct (JSON.strip_prefix "ull" r0); cbn; [|discriminate].
    intros [= <- _]. discriminate.
  - destruct (JSON.parse_number (String c r0)) as [[t r1]|]; cbn; [|discriminate].
    intros [= <- _]. discriminate.
Qed.

Lemma parse_defined (text : string) (v : JS.Value) :
  JSON.parse text = Some v -> v <> JS.undefined.
Proof.
  unfold JSON.parse.
  destruct (JSON.parse_value (2 * String.length text + 2) text) as [[x r]|] eqn:H;
    cbn; [|discriminate].
  destruct (String.eqb (JSON.skip_ws r) ""); [|discriminate].
  intros [= <-]. exact (parse_value_defined _ _ _ _ H).
Qed.

(** ** How the platform calls act on the world *)

Lemma requests_emit_post (req : Request) (w : World) :
  requests (emit (Post req) w) = (requests w ++ [req])%list.
Proof.
  unfold requests, emit; simpl.
  rewrite omap_app. reflexivity.
Qed.

Lemma requests_emit_log (args : list JS.Value) (w : World) :
  requests (emit (ConsoleLog args) w) = requests w.
Proof.
  unfold requests, emit; simpl.
  rewrite omap_app; simpl. apply app_nil_r.
Qed.

Lemma requests_emit_error (args : list JS.Value) (w : World) :
  requests (emit (ConsoleError args) w) = requests w.
Proof.
  unfold requests, emit; simpl.
  rewrite omap_app; simpl. apply app_nil_r.
Qed.

Lemma requests_store (path content : string) (w : World) :
  requests (store path content w) = requests w.
Proof. reflexivity. Qed.

Lemma requests_tick (w : World) : requests (tick w) = requests w.
Proof. reflexivity. Qed.

(** ** The text a refresh stores *)

Lemma stringify_token_record (v : JS.Value) :
  JSON.stringify (token_record v) = Some (record_text v).
Proof.
  unfold JSON.stringify, token_record, record_text.
  cbn [JSON.stringify_at omap list_omap fst snd].
  change ("" ++ "  ") with "  ".
  destruct (JSON.stringify_at "  " v) as [t|]; reflexivity.
Qed.

(** ** [refreshAccessToken], case by case *)

Section RefreshCases.

Variable env : gmap string string.

Lemma refresh_without_secrets (w : World) :
  secrets_present env = false ->
  refreshAccessToken env w = (Thrown (Error missing_env_message), w).
Proof.
  unfold secrets_present, refreshAccessToken. intros H.
  destruct (JS.truthy (CLIENT_ID env)), (JS.truthy (CLIENT_SECRET env)),
    (JS.truthy (REFRESH_TOKEN env)); try discriminate H; reflexivity.
Qed.

(** With the secrets set, the whole of [refreshAccessToken] as a function
    of the reply to its request. *)
Lemma refresh_with_secrets (w : World) :
  secrets_present env = true ->
  refreshAccessToken env w =
    let w1 := emit (Post (refresh_request env)) w in
    match server w (List.length (requests w)) (refresh_request env) with
    | NoReply reason => (Thrown (refresh_failure reason), w1)
    | Replied r =>
        if validateStatus (status r) then
          if status r =? 200 then
            match JS.get (data r) "access_token" with
            | Some v =>
                if decide (TOKEN_FILE env ∈ write_denied w)
                then (Thrown (refresh_failure
                                ("EACCES: permission denied, open "
                                 ++ quoted (TOKEN_FILE env))), w1)
                else (Returned v, store (TOKEN_FILE env) (record_text v) w1)
            | None =>
                (Thrown (refresh_failure
                           ("Cannot read properties of " ++ JS.ToString (data r)
                            ++ " (reading " ++ quoted "access_token" ++ ")")), w1)
            end
          else (Returned JS.undefined, w1)
        else
          (Thrown (refresh_failure
                     (JS.ToString (JS.or_else (data r) (JS.Str (statusText r))))), w1)
    end.
Proof.
  unfold secrets_present, refreshAccessToken. intros H.
  destruct (JS.truthy (CLIENT_ID env)), (JS.truthy (CLIENT_SECRET env)),
    (JS.truthy (REFRESH_TOKEN env)); try discriminate H.
  cbn [negb orb].
  unfold try_catch, mbind, Async_bind, bind, axios_post.
  fold (refresh_request env).
  destruct (server w (List.length (requests w)) (refresh_request env)) as [reason|r];
    [reflexivity|].
  destruct (validateStatus (status r)); [|reflexivity].
  destruct (status r =? 200); [|reflexivity].
  unfold get_property.
  destruct (JS.get (data r) "access_token") as [v|]; [|reflexivity].
  unfold ret, fs_writeFile. rewrite stringify_token_record.
  cbn [write_denied emit].
  destruct (decide (TOKEN_FILE env ∈ write_denied w)); reflexivity.
Qed.

End RefreshCases.

(** ** [getAccessToken], case by case *)

Lemma getAccessToken_cases (env : gmap string string) (w : World) :
  getAccessToken env w =
    match files w !! TOKEN_FILE env with
    | None => refreshAccessToken env w
    | Some content =>
        if decide (TOKEN_FILE env ∈ read_denied w) then refreshAccessToken env w
        else match JSON.parse content with
             | None => refreshAccessToken env w
             | Some tokenData =>
                 match JS.get tokenData "access_token" with
                 | Some v => (Returned v, w)
                 | None => refreshAccessToken env w
                 end
             end
    end.
Proof.
  unfold getAccessToken, try_catch, mbind, Async_bind, bind, fs_access, fs_readFile.
  destruct (files w !! TOKEN_FILE env) as [content|] eqn:Hfile; [|reflexivity].
  cbn beta iota. rewrite Hfile.
  destruct (decide (TOKEN_FILE env ∈ read_denied w)); [reflexivity|].
  unfold JSON_parse.
  destruct (JSON.parse content) as [tokenData|]; [|reflexivity].
  unfold ret, get_property.
  destruct (JS.get tokenData "access_token"); reflexivity.
Qed.

(** ** Missing secrets *)

Lemma unset_secret_not_present (env : gmap string string) :
  env !! "ZOHO_CLIENT_ID" = None \/ env !! "ZOHO_CLIENT_SECRET" = None
  \/ env !! "ZOHO_REFRESH_TOKEN" = None ->
  secrets_present env = false.
Proof.
  unfold secrets_present, CLIENT_ID, CLIENT_SECRET, REFRESH_TOKEN, process_env.
  intros [H | [H | H]]; rewrite H; cbn [JS.truthy];
    rewrite ?andb_false_r; reflexivity.
Qed.

(** C3.  If any one of the three secrets (ZOHO_CLIENT_ID,
    ZOHO_CLIENT_SECRET, ZOHO_REFRESH_TOKEN) is absent from the
    environment, [refreshAccessToken] throws the configuration error and
    leaves the world as it found it: no request is sent. *)
Theorem refresh_missing_secret_fatal (env : gmap string string) (w : World) :
  env !! "ZOHO_CLIENT_ID" = None \/ env !! "ZOHO_CLIENT_SECRET" = None
  \/ env !! "ZOHO_REFRESH_TOKEN" = None ->
  refreshAccessToken env w = (Thrown (Error missing_env_message), w)
  /\ requests (world_after (refreshAccessToken env w)) = requests w.
Proof.
  intros H. apply unset_secret_not_present in H.
  rewrite (refresh_without_secrets env w H). split; reflexivity.
Qed.

Lemma refresh_missing_secret_fatal_witness :
  let w := Sample.world ∅ (Sample.issuing "fresh") Sample.morning in
  refreshAccessToken Sample.env_without_refresh_secret w
    = (Thrown (Error missing_env_message), w)
  /\ requests (world_after (refreshAccessToken Sample.env_without_refresh_secret w))
     = requests w.
Proof.
  apply (refresh_missing_secret_fatal Sample.env_without_refresh_secret).
  right; right. vm_compute. reflexivity.
Defined.

(** ** A success status other than 200 *)

(** C9.  With the secrets set, when the token endpoint answers with a
    status in 2xx other than 200, [refreshAccessToken] returns
    [undefined]: nothing is thrown, and the only effect is the request
    sent; no file is written. *)
Theorem refresh_success_status_not_200
    (env : gmap string string) (w : World) (r : Response) :
  secrets_present env = true ->
  server w (List.length (requests w)) (refresh_request env) = Replied r ->
  200 <= status r < 300 ->
  status r <> 200 ->
  refreshAccessToken env w
    = (Returned JS.undefined, emit (Post (refresh_request env)) w)
  /\ files (world_after (refreshAccessToken env w)) = files w.
Proof.
  intros Hsec Hreply Hrange Hne.
  rewrite (refresh_with_secrets env w Hsec). cbn zeta. rewrite Hreply.
  assert (validateStatus (status r) = true) as ->.
  { unfold validateStatus. apply andb_true_intro. split; lia. }
  assert ((status r =? 200) = false) as -> by lia.
  split; reflexivity.
Qed.

Lemma refresh_success_status_not_200_witness :
  let created := mkResponse 201 "Created" (JS.Obj [("access_token", JS.Str "fresh")]) in
  let w := Sample.world (Sample.token_file "old") (Sample.answering created)
             Sample.morning in
  refreshAccessToken Sample.env w
    = (Returned JS.undefined, emit (Post (refresh_request Sample.env)) w)
  /\ files (world_after (refreshAccessToken Sample.env w)) = files w.
Proof.
  apply (refresh_success_status_not_200 Sample.env _
           (mkResponse 201 "Created" (JS.Obj [("access_token", JS.Str "fresh")]))).
  - vm_compute. reflexivity.
  - reflexivity.
  - simpl. lia.
  - simpl. lia.
Defined.

(** ** Storage that cannot be used *)

(** C5.  When the token file is absent, cannot be read, or does not
    hold valid JSON, [getAccessToken] does exactly what
    [refreshAccessToken] does from the same world: the storage error is
    caught and never reaches the caller. *)
Theorem unusable_storage_falls_through (env : gmap string string) (w : World) :
  files w !! TOKEN_FILE env = None
  \/ TOKEN_FILE env ∈ read_denied w
  \/ (exists content, files w !! TOKEN_FILE env = Some content
                      /\ JSON.parse content = None) ->
  getAccessToken env w = refreshAccessToken env w.
Proof.
  intros H. rewrite getAccessToken_cases.
  destruct H as [H | [H | (content & Hfile & Hparse)]].
  - rewrite H. reflexivity.
  - destruct (files w !! TOKEN_FILE env); [|reflexivity].
    destruct (decide (TOKEN_FILE env ∈ read_denied w)); [reflexivity|contradiction].
  - rewrite Hfile, Hparse.
    destruct (decide (TOKEN_FILE env ∈ read_denied w)); reflexivity.
Qed.

Lemma unusable_storage_falls_through_witness :
  let w := Sample.world (Sample.token_file "{ access_token: oops")
             (Sample.issuing "fresh") Sample.morning in
  getAccessToken Sample.env w = refreshAccessToken Sample.env w.
Proof.
  apply (unusable_storage_falls_through Sample.env).
  right; right. exists "{ access_token: oops". split; vm_compute; reflexivity.
Defined.

(** ** Stored JSON without the token field *)

(** C10, as stated, fails on the JSON text [null]: it is valid JSON and
    carries no [access_token], yet reading the field off [null] throws,
    the handler refreshes, one request is sent and the issued value is
    returned. *)
Lemma stored_null_is_refreshed :
  let w := Sample.world (Sample.token_file "null") (Sample.issuing "fresh")
             Sample.morning in
  files w !! TOKEN_FILE Sample.env = Some "null"
  /\ JSON.parse "null" = Some JS.null
  /\ lacks_access_token JS.null
  /\ getAccessToken Sample.env w <> (Returned JS.undefined, w)
  /\ result_of (getAccessToken Sample.env w) = Returned (JS.Str "fresh")
  /\ requests (world_after (getAccessToken Sample.env w))
     = [refresh_request Sample.env].
Proof.
  cbn zeta. repeat split; try (vm_compute; reflexivity).
  vm_compute. discriminate.
Qed.

(** C10, amended.  For every token file whose content parses to a JSON
    value other than [null] that has no [access_token] property (such as
    [{}]), [getAccessToken] returns [undefined] and leaves the world
    untouched: no refresh, no request.  Whenever a stored value other
    than [null] yields a defined result, that value is an object that
    carries the property.  When the content is the JSON text [null],
    the call does what [refreshAccessToken] does. *)
Theorem stored_json_without_token
    (env : gmap string string) (w : World) (content : string) (tokenData : JS.Value) :
  files w !! TOKEN_FILE env = Some content ->
  TOKEN_FILE env ∉ read_denied w ->
  JSON.parse content = Some tokenData ->
  (tokenData <> JS.null ->
   (lacks_access_token tokenData ->
    getAccessToken env w = (Returned JS.undefined, w))
   /\ (forall v, getAccessToken env w = (Returned v, w) -> v <> JS.undefined ->
         exists props, tokenData = JS.Obj props
                       /\ JS.lookup_prop "access_token" props = Some v))
  /\ (tokenData = JS.null -> getAccessToken env w = refreshAccessToken env w).
Proof.
  intros Hfile Hread Hparse.
  pose proof (parse_defined _ _ Hparse) as Hdef.
  rewrite getAccessToken_cases, Hfile, Hparse.
  destruct (decide (TOKEN_FILE env ∈ read_denied w)); [contradiction|].
  split; [|intros ->; reflexivity].
  intros Hnull. split.
  - intros Hlack. destruct tokenData; try contradiction; try reflexivity.
    cbn in Hlack |- *. rewrite Hlack. reflexivity.
  - intros v Hret Hv.
    destruct tokenData; try contradiction; cbn in Hret;
      try (injection Hret as <-; contradiction).
    exists props. split; [reflexivity|].
    destruct (JS.lookup_prop "access_token" props) as [x|]; cbn in Hret.
    + injection Hret as <-. reflexivity.
    + injection Hret as <-. contradiction.
Qed.

Lemma stored_json_without_token_witness :
  let w := Sample.world (Sample.token_file "{}") (Sample.issuing "fresh")
             Sample.morning in
  getAccessToken Sample.env w = (Returned JS.undefined, w).
Proof.
  cbn zeta.
  destruct (stored_json_without_token Sample.env
              (Sample.world (Sample.token_file "{}") (Sample.issuing "fresh")
                 Sample.morning) "{}" (JS.Obj [])) as [Hobject _].
  - vm_compute. reflexivity.
  - simpl. apply not_elem_of_empty.
  - vm_compute. reflexivity.
  - destruct Hobject as [Hundefined _]; [discriminate|].
    apply Hundefined. reflexivity.
Defined.

(** ** Expiry *)

Lemma cache_miss_refreshes (env : gmap string string) (w : World) :
  cache_miss env w -> getAccessToken env w = refreshAccessToken env w.
Proof.
  unfold cache_miss. rewrite getAccessToken_cases.
  destruct (files w !! TOKEN_FILE env) as [content|]; [|reflexivity].
  destruct (decide (TOKEN_FILE env ∈ read_denied w)); [reflexivity|].
  intros [H|H]; [contradiction|].
  destruct (JSON.parse content) as [tokenData|]; [|reflexivity].
  rewrite H. reflexivity.
Qed.


(** C1, as stated, fails: a value issued at 09:03:07 for one hour is
    still served at 11:03:07.  The call returns the stored value, sends
    nothing and leaves the world as it was, although the token endpoint
    would have issued a new value. *)
Lemma expired_value_is_served :
  result_of (getAccessToken Sample.env Expiry.w0) = Returned (JS.Str "first")
  /\ getTime (clock Expiry.w2 (clock_reads Expiry.w2)) + Expiry.refreshBuffer
     >= Expiry.expiresAt
  /\ getAccessToken Sample.env Expiry.w2 = (Returned (JS.Str "first"), Expiry.w2)
  /\ requests Expiry.w2 = [refresh_request Sample.env]
  /\ server Expiry.w2 (List.length (requests Expiry.w2)) (refresh_request Sample.env)
     = Sample.ok (JS.Obj [("access_token", JS.Str "second");
                          ("expires_in", JS.Num "3600")]).
Proof.
  repeat split; try (vm_compute; reflexivity).
  vm_compute. discriminate.
Qed.

(** C1, amended.  [getAccessToken] consults neither the clock nor an
    expiry.  At every time: when the token file can be read and parses to
    a JSON value from which [access_token] can be read, that stored value
    is returned and the world is untouched (no request); on a cache miss,
    with the secrets set, a 200 answer from the token endpoint and a
    writable file, exactly one request is sent, the refresh request, and
    the newly issued value is returned. *)
Theorem refresh_only_on_cache_miss (env : gmap string string) (w : World) (now : Date) :
  (forall content tokenData v,
      files w !! TOKEN_FILE env = Some content ->
      TOKEN_FILE env ∉ read_denied w ->
      JSON.parse content = Some tokenData ->
      JS.get tokenData "access_token" = Some v ->
      getAccessToken env (at_time now w) = (Returned v, at_time now w))
  /\ (forall r v,
        cache_miss env w ->
        secrets_present env = true ->
        server w (List.length (requests w)) (refresh_request env) = Replied r ->
        status r = 200 ->
        JS.get (data r) "access_token" = Some v ->
        TOKEN_FILE env ∉ write_denied w ->
        result_of (getAccessToken env (at_time now w)) = Returned v
        /\ requests (world_after (getAccessToken env (at_time now w)))
           = (requests w ++ [refresh_request env])%list).
Proof.
  split.
  - intros content tokenData v Hfile Hread Hparse Hget.
    rewrite getAccessToken_cases. cbn [files read_denied at_time].
    rewrite Hfile, Hparse, Hget.
    destruct (decide (TOKEN_FILE env ∈ read_denied w)); [contradiction|reflexivity].
  - intros r v Hmiss Hsec Hreply Hstatus Hget Hwrite.
    rewrite (cache_miss_refreshes env (at_time now w) Hmiss).
    rewrite (refresh_with_secrets env _ Hsec). cbn zeta.
    change (requests (at_time now w)) with (requests w).
    change (server (at_time now w)) with (server w).
    change (write_denied (at_time now w)) with (write_denied w).
    rewrite Hreply, Hstatus, Hget. cbn [validateStatus Z.leb Z.ltb Z.compare Z.eqb
      Pos.compare Pos.compare_cont Pos.eqb andb].
    destruct (decide (TOKEN_FILE env ∈ write_denied w)); [contradiction|].
    split; [reflexivity|].
    unfold world_after; cbn [snd].
    rewrite requests_store, requests_emit_post. reflexivity.
Qed.

(** ** What a refresh does to the token file *)

(** A refresh that succeeds: the reply has status 200, [access_token]
    can be read off its body, and the token file can be written. *)
Lemma refresh_success (env : gmap string string) (w : World) (r : Response)
    (v : JS.Value) :
  secrets_present env = true ->
  server w (List.length (requests w)) (refresh_request env) = Replied r ->
  status r = 200 ->
  JS.get (data r) "access_token" = Some v ->
  TOKEN_FILE env ∉ write_denied w ->
  refreshAccessToken env w
    = (Returned v,
       store (TOKEN_FILE env) (record_text v) (emit (Post (refresh_request env)) w)).
Proof.
  intros Hsec Hreply Hstatus Hget Hwrite.
  rewrite (refresh_with_secrets env w Hsec). cbn zeta.
  rewrite Hreply, Hstatus, Hget.
  destruct (decide (TOKEN_FILE env ∈ write_denied w)); [contradiction|reflexivity].
Qed.

(** Conversely, a refresh returns an access value only along that path:
    the request was sent and the file was written. *)
Lemma refresh_returned (env : gmap string string) (w : World) (v : JS.Value) :
  result_of (refreshAccessToken env w) = Returned v ->
  v <> JS.undefined ->
  refreshAccessToken env w
    = (Returned v,
       store (TOKEN_FILE env) (record_text v) (emit (Post (refresh_request env)) w)).
Proof.
  intros Hres Hv.
  destruct (secrets_present env) eqn:Hsec.
  - revert Hres. rewrite (refresh_with_secrets env w Hsec). cbn zeta.
    destruct (server w (List.length (requests w)) (refresh_request env)) as [reason|r];
      [discriminate|].
    destruct (validateStatus (status r)); [|discriminate].
    destruct (status r =? 200).
    + destruct (JS.get (data r) "access_token") as [x|]; [|discriminate].
      destruct (decide (TOKEN_FILE env ∈ write_denied w)); [discriminate|].
      unfold result_of; cbn [fst]. intros [= ->]. reflexivity.
    + unfold result_of; cbn [fst]. intros [= <-]. contradiction.
  - revert Hres. rewrite (refresh_without_secrets env w Hsec). discriminate.
Qed.

Lemma refresh_refused_throws (env : gmap string string) (w : World) :
  refresh_refused env w ->
  (exists e, result_of (refreshAccessToken env w) = Thrown e)
  /\ files (world_after (refreshAccessToken env w)) = files w.
Proof.
  intros H.
  destruct (secrets_present env) eqn:Hsec.
  - rewrite (refresh_with_secrets env w Hsec). cbn zeta.
    destruct H as [[reason ->] | (r & -> & Hstatus)].
    + unfold result_of, world_after; cbn [fst snd]. eauto.
    + assert (validateStatus (status r) = false) as ->.
      { unfold validateStatus. apply andb_false_iff. lia. }
      unfold result_of, world_after; cbn [fst snd]. eauto.
  - rewrite (refresh_without_secrets env w Hsec).
    unfold result_of, world_after; cbn [fst snd]. eauto.
Qed.

(** C6.  A successful refresh, one that returns an access value,
    replaces the content of the token file by the text of the new
    record, whatever was there, and touches no other file; after two
    successive successful refreshes the file holds the second record
    only.  A refresh that fails at the network (no reply, or a status
    outside 2xx) throws and leaves every file as it was. *)
Theorem refresh_storage_effect (env : gmap string string) (w : World) :
  (forall v,
      result_of (refreshAccessToken env w) = Returned v ->
      v <> JS.undefined ->
      let w1 := world_after (refreshAccessToken env w) in
      files w1 = <[TOKEN_FILE env := record_text v]> (files w)
      /\ (forall v',
            result_of (refreshAccessToken env w1) = Returned v' ->
            v' <> JS.undefined ->
            let w2 := world_after (refreshAccessToken env w1) in
            files w2 !! TOKEN_FILE env = Some (record_text v')
            /\ files w2 = <[TOKEN_FILE env := record_text v']> (files w)))
  /\ (refresh_refused env w ->
      (exists e, result_of (refreshAccessToken env w) = Thrown e)
      /\ files (world_after (refreshAccessToken env w)) = files w).
Proof.
  split.
  - intros v Hres Hv.
    rewrite (refresh_returned env w v Hres Hv).
    cbn zeta. unfold world_after. cbn [snd].
    split; [reflexivity|].
    intros v' Hres' Hv'.
    rewrite (refresh_returned env _ v' Hres' Hv').
    cbn [snd store emit files]. split.
    + apply lookup_insert_eq.
    + apply insert_insert_eq.
  - apply refresh_refused_throws.
Qed.

(** The file holds ["stale text"]; two refreshes succeed in a row, and in
    another world the token endpoint cannot be reached. *)
Lemma refresh_storage_effect_witness :
  let env := Sample.env in
  let w := Sample.world (Sample.token_file "stale text") Expiry.server
             Sample.morning in
  let w1 := world_after (refreshAccessToken env w) in
  let w2 := world_after (refreshAccessToken env w1) in
  let down := Sample.world (Sample.token_file "stale text")
                (fun _ _ => NoReply "connect ECONNREFUSED") Sample.morning in
  (files w1 = <[TOKEN_FILE env := record_text (JS.Str "first")]> (files w)
   /\ files w2 !! TOKEN_FILE env = Some (record_text (JS.Str "second"))
   /\ files w2 = <[TOKEN_FILE env := record_text (JS.Str "second")]> (files w))
  /\ ((exists e, result_of (refreshAccessToken env down) = Thrown e)
      /\ files (world_after (refreshAccessToken env down)) = files down).
Proof.
  cbn zeta. split.
  - destruct (refresh_storage_effect Sample.env
                (Sample.world (Sample.token_file "stale text") Expiry.server
                   Sample.morning)) as [Hok _].
    destruct (Hok (JS.Str "first")) as (H1 & Hnext);
      [vm_compute; reflexivity | discriminate |].
    destruct (Hnext (JS.Str "second")) as (H2 & H3);
      [vm_compute; reflexivity | discriminate |].
    split; [exact H1|]. split; [exact H2|exact H3].
  - destruct (refresh_storage_effect Sample.env
                (Sample.world (Sample.token_file "stale text")
                   (fun _ _ => NoReply "connect ECONNREFUSED") Sample.morning))
      as [_ Hfail].
    apply Hfail. left. exists "connect ECONNREFUSED". reflexivity.
Defined.

(** ** Reading back a stored string *)

Lemma append_assoc (a b c : string) : (a ++ b) ++ c = a ++ (b ++ c).
Proof. induction a as [|x a IH]; [reflexivity|]. cbn [String.append]. f_equal. exact IH. Qed.

(** What [escape_char] writes for a character reads back as that
    character. *)
Lemma parse_escaped_char (c : ascii) (tail : string) :
  JSON.parse_string_body (JSON.escape_char c ++ tail)
  = ('(body, rest) ← JSON.parse_string_body tail; Some (String c body, rest)).
Proof.
  destruct c as [[] [] [] [] [] [] [] []]; reflexivity.
Qed.

Lemma parse_escaped (s rest : string) :
  JSON.parse_string_body (JSON.escape s ++ String JSON.dquote rest) = Some (s, rest).
Proof.
  induction s as [|c s IH].
  - reflexivity.
  - cbn [JSON.escape]. rewrite append_assoc, parse_escaped_char, IH. reflexivity.
Qed.

Lemma quote_append (s rest : string) :
  JSON.quote s ++ rest = String JSON.dquote (JSON.escape s ++ String JSON.dquote rest).
Proof.
  unfold JSON.quote. cbn [String.append]. rewrite append_assoc. reflexivity.
Qed.

(** One step of the parser on a text whose head is known. *)
Ltac parse_step :=
  cbn [JSON.parse_value JSON.parse_members JSON.parse_elements JSON.skip_ws
       JSON.is_ws JSON.dquote JSON.nl Ascii.eqb Bool.eqb orb andb
       JS.set_prop String.eqb mbind option_bind String.append].

(** The record stored for a string value parses to the object with that
    one property and nothing else. *)
Lemma parse_record_text (s : string) :
  JSON.parse (record_text (JS.Str s)) = Some (token_record (JS.Str s)).
Proof.
  unfold JSON.parse, record_text.
  cbn [JSON.stringify_at].
  remember (2 * String.length _ + 2)%nat as fuel eqn:Hfuel.
  assert (3 <= fuel)%nat as Hge by (subst fuel; cbn; lia).
  clear Hfuel. destruct fuel as [|[|[|f]]]; try lia. clear Hge.
  rewrite !quote_append.
  parse_step. rewrite parse_escaped.
  parse_step. rewrite parse_escaped.
  parse_step. reflexivity.
Qed.

(** ** The stored record *)

(** C2, as stated, fails: the token endpoint declares a lifetime
    ([expires_in]) with the value it issues, and the file written by the
    refresh holds the value alone; no expiry is computed or stored. *)
Lemma stored_record_has_no_expiry :
  let w := Sample.world ∅ (Sample.issuing "fresh") Sample.morning in
  let w' := world_after (refreshAccessToken Sample.env w) in
  server w 0 (refresh_request Sample.env)
    = Sample.ok (JS.Obj [("access_token", JS.Str "fresh"); ("expires_in", JS.Num "3600")])
  /\ result_of (refreshAccessToken Sample.env w) = Returned (JS.Str "fresh")
  /\ files w' !! TOKEN_FILE Sample.env
     = Some ("{" ++ JSON.nl ++ "  " ++ JSON.quote "access_token" ++ ": "
             ++ JSON.quote "fresh" ++ JSON.nl ++ "}")
  /\ (files w' !! TOKEN_FILE Sample.env ≫= JSON.parse)
     = Some (JS.Obj [("access_token", JS.Str "fresh")])
  /\ keys (JS.Obj [("access_token", JS.Str "fresh")]) = ["access_token"].
Proof.
  cbn zeta. repeat split; vm_compute; reflexivity.
Qed.

(** C2, amended.  After every successful refresh, one that returns
    an access value [v], the token file holds the text of the object
    [{ access_token: v }] and nothing else: when [v] is a string, the
    file parses to a single JSON object whose only property is
    [access_token], equal to [v].  No expiry is stored. *)
Theorem refresh_stores_token_only
    (env : gmap string string) (w : World) (v : JS.Value) :
  result_of (refreshAccessToken env w) = Returned v ->
  v <> JS.undefined ->
  let w' := world_after (refreshAccessToken env w) in
  files w' !! TOKEN_FILE env = JSON.stringify (token_record v)
  /\ (forall s, v = JS.Str s ->
        exists stored,
          (files w' !! TOKEN_FILE env ≫= JSON.parse) = Some stored
          /\ keys stored = ["access_token"]
          /\ JS.get stored "access_token" = Some v).
Proof.
  intros Hres Hv.
  rewrite (refresh_returned env w v Hres Hv).
  cbn zeta. unfold world_after. cbn [snd store files].
  rewrite lookup_insert_eq, stringify_token_record.
  split; [reflexivity|].
  intros s ->. exists (token_record (JS.Str s)).
  cbn [mbind option_bind]. rewrite parse_record_text.
  split; [reflexivity|]. split; reflexivity.
Qed.

Lemma refresh_stores_token_only_witness :
  let w := Sample.world (Sample.token_file "stale text") (Sample.issuing "fresh")
             Sample.morning in
  let w' := world_after (refreshAccessToken Sample.env w) in
  files w' !! TOKEN_FILE Sample.env = JSON.stringify (token_record (JS.Str "fresh"))
  /\ exists stored,
       (files w' !! TOKEN_FILE Sample.env ≫= JSON.parse) = Some stored
       /\ keys stored = ["access_token"]
       /\ JS.get stored "access_token" = Some (JS.Str "fresh").
Proof.
  cbn zeta.
  destruct (refresh_stores_token_only Sample.env
              (Sample.world (Sample.token_file "stale text") (Sample.issuing "fresh")
                 Sample.morning) (JS.Str "fresh")) as [Hfile Hparse].
  - vm_compute. reflexivity.
  - discriminate.
  - split; [exact Hfile|]. apply (Hparse "fresh"). reflexivity.
Defined.

(** ** [checkInOut] *)

Section CheckInOut.

Variable env : gmap string string.

(** When no credential can be had, the action logs the failure and
    throws the same error on; nothing is sent after the failed call. *)
Lemma checkInOut_without_credential
    (isCheckIn : bool) (w w1 : World) (e : JSError) :
  getAccessToken env w = (Thrown e, w1) ->
  checkInOut env isCheckIn w
  = (Thrown e,
     emit (ConsoleError [JS.Str (failure_line isCheckIn w1); error_detail e]) (tick w1)).
Proof.
  intros H.
  unfold checkInOut, try_catch, mbind, Async_bind, bind. rewrite H.
  reflexivity.
Qed.

(** With a credential and an answer in 2xx, one request is sent and
    the body of the answer is returned. *)
Lemma checkInOut_accepted
    (isCheckIn : bool) (w w1 : World) (accessToken : JS.Value) (r : Response) :
  getAccessToken env w = (Returned accessToken, w1) ->
  server w1 (List.length (requests w1))
    (attendance_request isCheckIn accessToken (clock w1 (clock_reads w1)))
  = Replied r ->
  validateStatus (status r) = true ->
  result_of (checkInOut env isCheckIn w) = Returned (data r)
  /\ requests (world_after (checkInOut env isCheckIn w))
     = (requests w1
        ++ [attendance_request isCheckIn accessToken (clock w1 (clock_reads w1))])%list
  /\ console_errors (world_after (checkInOut env isCheckIn w)) = console_errors w1.
Proof.
  intros Hget Hreply Hstatus.
  unfold checkInOut, try_catch, mbind, Async_bind, bind. rewrite Hget.
  unfold new_Date, axios_post.
  change (server (tick w1)) with (server w1).
  change (requests (tick w1)) with (requests w1).
  assert (forall b : bool,
             (if b then append_param [("dateFormat", "dd/MM/yyyy HH:mm:ss")] "checkIn"
                         (format_time (clock w1 (clock_reads w1)))
              else append_param [("dateFormat", "dd/MM/yyyy HH:mm:ss")] "checkOut"
                     (format_time (clock w1 (clock_reads w1))))
             = [("dateFormat", "dd/MM/yyyy HH:mm:ss");
                (if b then "checkIn" else "checkOut",
                 format_time (clock w1 (clock_reads w1)))]) as Hpayload
      by (intros []; reflexivity).
  cbn zeta. rewrite Hpayload.
  fold (attendance_request isCheckIn accessToken (clock w1 (clock_reads w1))).
  rewrite Hreply, Hstatus.
  unfold result_of, world_after, new_Date_toLocaleString, console_log, mret,
    Async_ret, ret. cbn [fst snd].
  split; [reflexivity|]. split.
  - rewrite !requests_emit_log, requests_tick, requests_emit_post. reflexivity.
  - unfold console_errors, emit, tick. cbn [trace].
    rewrite !omap_app. cbn [omap list_omap]. rewrite !app_nil_r. reflexivity.
Qed.

End CheckInOut.

(** ** The time stamp sent *)

Lemma checked_on_range (P : Z -> bool) (lo len : Z) :
  forallb (fun k => P (Z.of_nat k)) (seq (Z.to_nat lo) (Z.to_nat len)) = true ->
  forall n, 0 <= lo <= n /\ n < lo + len -> P n = true.
Proof.
  intros Hall n Hn.
  rewrite forallb_forall in Hall.
  specialize (Hall (Z.to_nat n)).
  rewrite Z2Nat.id in Hall by lia.
  apply Hall. apply in_seq. lia.
Qed.

Lemma two_digits_dd (n : Z) : 0 <= n <= 99 -> two_digits n = Pattern.dd n.
Proof.
  intros Hn. apply String.eqb_eq.
  apply (checked_on_range (fun k => String.eqb (two_digits k) (Pattern.dd k)) 0 100).
  - vm_compute. reflexivity.
  - lia.
Qed.

Lemma String_of_yyyy (n : Z) : 1000 <= n <= 9999 -> String_of n = Pattern.yyyy n.
Proof.
  intros Hn. apply String.eqb_eq.
  apply (checked_on_range (fun k => String.eqb (String_of k) (Pattern.yyyy k)) 1000 9000).
  - vm_compute. reflexivity.
  - lia.
Qed.

Lemma format_time_pattern (d : Date) :
  calendar_time d -> format_time d = Pattern.text d.
Proof.
  intros (Hd & Hm & Hy & Hh & Hmin & Hs).
  unfold format_time, Pattern.text. cbn zeta.
  rewrite !two_digits_dd by lia. rewrite String_of_yyyy by lia.
  reflexivity.
Qed.

(** ** A mark with a cached credential *)

(** C7.  With a token file that can be read and holds a JSON object
    whose [access_token] is the string [cached], and an attendance
    endpoint that answers 200, [checkIn] sends exactly one request: a
    POST to the attendance endpoint whose form body is the [dateFormat]
    field and a [checkIn] field holding the clock reading taken by the
    action, printed [dd/MM/yyyy HH:mm:ss], with the header
    [Authorization: Zoho-oauthtoken cached].  The body of the answer is
    returned, nothing is thrown and no failure is logged. *)
Theorem checkIn_with_cached_credential
    (env : gmap string string) (w : World) (content : string)
    (tokenData : JS.Value) (cached : string) (r : Response) :
  let now := clock w (clock_reads w) in
  let sent :=
    mkRequest "https://people.zoho.eu/people/api/attendance"
      [("dateFormat", "dd/MM/yyyy HH:mm:ss"); ("checkIn", format_time now)]
      [("Authorization", "Zoho-oauthtoken " ++ cached);
       ("Content-Type", "application/x-www-form-urlencoded")] in
  files w !! TOKEN_FILE env = Some content ->
  TOKEN_FILE env ∉ read_denied w ->
  JSON.parse content = Some tokenData ->
  JS.get tokenData "access_token" = Some (JS.Str cached) ->
  server w (List.length (requests w)) sent = Replied r ->
  status r = 200 ->
  result_of (checkIn env w) = Returned (data r)
  /\ requests (world_after (checkIn env w)) = (requests w ++ [sent])%list
  /\ console_errors (world_after (checkIn env w)) = console_errors w
  /\ (calendar_time now -> format_time now = Pattern.text now).
Proof.
  intros now sent Hfile Hread Hparse Hget Hreply Hstatus.
  assert (getAccessToken env w = (Returned (JS.Str cached), w)) as Hcached.
  { rewrite getAccessToken_cases, Hfile, Hparse, Hget.
    destruct (decide (TOKEN_FILE env ∈ read_denied w)); [contradiction|reflexivity]. }
  assert (validateStatus (status r) = true) as Hvalid by (rewrite Hstatus; reflexivity).
  destruct (checkInOut_accepted env true w w (JS.Str cached) r Hcached Hreply Hvalid)
    as (Hres & Hreq & Herr).
  unfold checkIn. repeat split; try assumption.
  apply format_time_pattern.
Qed.

Lemma checkIn_with_cached_credential_witness :
  let env := Sample.env in
  let w := Sample.world (Sample.token_file (record_text (JS.Str "cached-value")))
             (Sample.issuing "fresh") Sample.morning in
  let sent :=
    mkRequest "https://people.zoho.eu/people/api/attendance"
      [("dateFormat", "dd/MM/yyyy HH:mm:ss"); ("checkIn", "02/11/2025 09:03:07")]
      [("Authorization", "Zoho-oauthtoken cached-value");
       ("Content-Type", "application/x-www-form-urlencoded")] in
  result_of (checkIn env w) = Returned (JS.Obj [("status", JS.Str "success")])
  /\ requests (world_after (checkIn env w)) = [sent]
  /\ console_errors (world_after (checkIn env w)) = []
  /\ format_time Sample.morning = Pattern.text Sample.morning.
Proof.
  cbn zeta.
  destruct (checkIn_with_cached_credential Sample.env
              (Sample.world (Sample.token_file (record_text (JS.Str "cached-value")))
                 (Sample.issuing "fresh") Sample.morning)
              (record_text (JS.Str "cached-value"))
              (token_record (JS.Str "cached-value")) "cached-value"
              (mkResponse 200 "OK" (JS.Obj [("status", JS.Str "success")])))
    as (Hres & Hreq & Herr & Hfmt).
  - vm_compute. reflexivity.
  - simpl. apply not_elem_of_empty.
  - vm_compute. reflexivity.
  - reflexivity.
  - vm_compute. reflexivity.
  - reflexivity.
  - split; [exact Hres|]. split; [exact Hreq|]. split; [exact Herr|].
    apply Hfmt. unfold calendar_time. simpl. lia.
Defined.

(** ** A refused refresh *)

(** Whatever object the token endpoint sends with a status outside
    2xx, the error thrown by the refresh prints it as [[object Object]]. *)
Lemma refresh_failure_hides_object_body
    (env : gmap string string) (w : World) (r : Response)
    (props : list (string * JS.Value)) :
  secrets_present env = true ->
  server w (List.length (requests w)) (refresh_request env) = Replied r ->
  validateStatus (status r) = false ->
  data r = JS.Obj props ->
  result_of (refreshAccessToken env w)
  = Thrown (Error "Token refresh failed: [object Object]").
Proof.
  intros Hsec Hreply Hstatus Hdata.
  rewrite (refresh_with_secrets env w Hsec). cbn zeta.
  rewrite Hreply, Hstatus, Hdata. reflexivity.
Qed.

(** C4.  The token endpoint answers 400 with the body
    [{"error":"invalid_grant"}].  The refresh throws, and [checkIn] logs
    the failure, throws the same error and sends nothing to the
    attendance endpoint (the only request is the refresh).  But the error
    thrown, and the line logged, read [Token refresh failed: [object
    Object]]: the detail of the response is not in them. *)
Theorem invalid_grant_detail_is_lost :
  let denied := mkResponse 400 "Bad Request" (JS.Obj [("error", JS.Str "invalid_grant")]) in
  let w := Sample.world ∅ (Sample.answering denied) Sample.morning in
  refreshAccessToken Sample.env w
    = (Thrown (mkError "Token refresh failed: [object Object]" None),
       emit (Post (refresh_request Sample.env)) w)
  /\ result_of (checkIn Sample.env w)
     = Thrown (mkError "Token refresh failed: [object Object]" None)
  /\ console_errors (world_after (checkIn Sample.env w))
     = [[JS.Str "[11/2/2025, 9:03:07] CHECK IN FAILED:";
         JS.Str "Token refresh failed: [object Object]"]]
  /\ requests (world_after (checkIn Sample.env w)) = [refresh_request Sample.env]
  /\ requests_to attendance_url (world_after (checkIn Sample.env w)) = [].
Proof.
  cbn zeta. repeat split; vm_compute; reflexivity.
Qed.

(** ** Arming the schedule *)

Section Scheduler.

Variable env : gmap string string.

(** An invalid check-in expression stops [setupCronJobs] at once. *)
Lemma setup_rejects_checkin (w : World) :
  Cron.validate (CHECKIN_TIME env) = false ->
  exists e, setupCronJobs env w = (Thrown e, w).
Proof.
  intros H. unfold setupCronJobs, mbind, Async_bind, bind, Cron.schedule.
  rewrite H. eauto.
Qed.

(** An invalid check-out expression stops it after the check-in task
    was armed. *)
Lemma setup_rejects_checkout (w : World) :
  Cron.validate (CHECKIN_TIME env) = true ->
  Cron.validate (CHECKOUT_TIME env) = false ->
  exists e, setupCronJobs env w = (Thrown e, arm (checkin_task env) w).
Proof.
  intros Hin Hout. unfold setupCronJobs, mbind, Async_bind, bind, Cron.schedule.
  rewrite Hin. cbn beta iota. rewrite Hout. eauto.
Qed.

Lemma setup_arms_both (w : World) :
  Cron.validate (CHECKIN_TIME env) = true ->
  Cron.validate (CHECKOUT_TIME env) = true ->
  result_of (setupCronJobs env w) = Returned tt
  /\ cron_table (world_after (setupCronJobs env w))
     = (cron_table w ++ [checkin_task env; checkout_task env])%list.
Proof.
  intros Hin Hout.
  unfold setupCronJobs, mbind, Async_bind, bind, Cron.schedule.
  rewrite Hin. cbn beta iota. rewrite Hout.
  unfold result_of, world_after, console_log. cbn [fst snd emit arm cron_table].
  split; [reflexivity|]. rewrite <- app_assoc. reflexivity.
Qed.

End Scheduler.

(** C8.  The expression ["0 9 * * 1-5"] validates and ["99 99 * * *"]
    does not.  For every pair of configured expressions, every task that
    [startScheduler] arms has an expression that validates; if either
    expression does not validate, [startScheduler] throws and never
    reports the scheduler as started, and with an invalid check-in
    expression it arms nothing at all. *)
Theorem schedule_expressions_validated (env : gmap string string) (w : World) :
  Cron.validate "0 9 * * 1-5" = true
  /\ Cron.validate "99 99 * * *" = false
  /\ (forall t, t ∈ cron_table (world_after (startScheduler env w)) ->
        t ∈ cron_table w \/ Cron.validate (expression t) = true)
  /\ (Cron.validate (CHECKIN_TIME env) = false
      \/ Cron.validate (CHECKOUT_TIME env) = false ->
      (exists e, result_of (startScheduler env w) = Thrown e)
      /\ trace (world_after (startScheduler env w)) = trace w)
  /\ (Cron.validate (CHECKIN_TIME env) = false ->
      cron_table (world_after (startScheduler env w)) = cron_table w).
Proof.
  split; [vm_compute; reflexivity|]. split; [vm_compute; reflexivity|].
  unfold startScheduler, mbind, Async_bind, bind.
  destruct (Cron.validate (CHECKIN_TIME env)) eqn:Hin.
  - destruct (Cron.validate (CHECKOUT_TIME env)) eqn:Hout.
    + destruct (setup_arms_both env w Hin Hout) as [Hres Htable].
      destruct (setupCronJobs env w) as [o w1].
      unfold result_of, world_after in *. cbn [fst snd] in *. subst o.
      cbn [console_log snd emit cron_table]. rewrite Htable.
      split; [|split; [intros [H|H]; discriminate H | intros H; discriminate H]].
      intros t Ht. apply elem_of_app in Ht as [Ht|Ht]; [left; exact Ht|right].
      apply elem_of_cons in Ht as [->|Ht]; [exact Hin|].
      apply elem_of_cons in Ht as [->|Ht]; [exact Hout|].
      apply elem_of_nil in Ht. contradiction.
    + destruct (setup_rejects_checkout env w Hin Hout) as [e ->].
      unfold result_of, world_after. cbn [fst snd arm cron_table trace].
      split; [|split; [eauto | intros H; discriminate H]].
      intros t Ht. apply elem_of_app in Ht as [Ht|Ht]; [left; exact Ht|right].
      apply elem_of_cons in Ht as [->|Ht]; [exact Hin|].
      apply elem_of_nil in Ht. contradiction.
  - destruct (setup_rejects_checkin env w Hin) as [e ->].
    unfold result_of, world_after. cbn [fst snd].
    split; [intros t Ht; left; exact Ht|]. split; eauto.
Qed.

(** ** A scheduled job never throws *)


(** X2.  A secret set to the empty string counts as missing. *)
Theorem empty_secret_is_missing (env : gmap string string) (w : World) :
  env !! "ZOHO_CLIENT_ID" = Some "" \/ env !! "ZOHO_CLIENT_SECRET" = Some ""
  \/ env !! "ZOHO_REFRESH_TOKEN" = Some "" ->
  refreshAccessToken env w = (Thrown (Error missing_env_message), w).
Proof.
  intros H. apply refresh_without_secrets.
  unfold secrets_present, CLIENT_ID, CLIENT_SECRET, REFRESH_TOKEN, process_env.
  destruct H as [H | [H | H]]; rewrite H; cbn [JS.truthy String.eqb negb];
    rewrite ?andb_false_r; reflexivity.
Qed.

Lemma empty_secret_is_missing_witness :
  let env := <["ZOHO_CLIENT_SECRET" := ""]> Sample.env in
  let w := Sample.world ∅ (Sample.issuing "fresh") Sample.morning in
  refreshAccessToken env w = (Thrown (Error missing_env_message), w).
Proof.
  apply (empty_secret_is_missing (<["ZOHO_CLIENT_SECRET" := ""]> Sample.env)).
  right; left. vm_compute. reflexivity.
Defined.

(** * Further properties of the token manager *)

(** ** Requests and files, whatever happens *)

(** A refresh sends its one request exactly when the secrets are set. *)
Lemma refresh_requests (env : gmap string string) (w : World) :
  requests (world_after (refreshAccessToken env w))
  = (requests w ++ (if secrets_present env then [refresh_request env] else []))%list.
Proof.
  destruct (secrets_present env) eqn:Hsec.
  - rewrite (refresh_with_secrets env w Hsec). cbn zeta.
    destruct (server w (List.length (requests w)) (refresh_request env)) as [reason|r].
    + apply requests_emit_post.
    + destruct (validateStatus (status r)); [|apply requests_emit_post].
      destruct (status r =? 200); [|apply requests_emit_post].
      destruct (JS.get (data r) "access_token"); [|apply requests_emit_post].
      destruct (decide (TOKEN_FILE env ∈ write_denied w)); apply requests_emit_post.
  - rewrite (refresh_without_secrets env w Hsec). symmetry. apply app_nil_r.
Qed.

(** A refresh leaves the files alone or replaces the token file. *)
Lemma refresh_files (env : gmap string string) (w : World) :
  files (world_after (refreshAccessToken env w)) = files w
  \/ exists v, files (world_after (refreshAccessToken env w))
               = <[TOKEN_FILE env := record_text v]> (files w).
Proof.
  destruct (secrets_present env) eqn:Hsec.
  - rewrite (refresh_with_secrets env w Hsec). cbn zeta.
    destruct (server w (List.length (requests w)) (refresh_request env)) as [reason|r];
      [left; reflexivity|].
    destruct (validateStatus (status r)); [|left; reflexivity].
    destruct (status r =? 200); [|left; reflexivity].
    destruct (JS.get (data r) "access_token") as [v|]; [|left; reflexivity].
    destruct (decide (TOKEN_FILE env ∈ write_denied w)); [left; reflexivity|].
    right. exists v. reflexivity.
  - rewrite (refresh_without_secrets env w Hsec). left. reflexivity.
Qed.


Lemma refresh_same_inputs (env : gmap string string) (w w' : World) :
  same_inputs w w' ->
  result_of (refreshAccessToken env w) = result_of (refreshAccessToken env w').
Proof.
  intros (Hf & Hr & Hw & Hs & Hq).
  destruct (secrets_present env) eqn:Hsec.
  - rewrite !(refresh_with_secrets env _ Hsec). cbn zeta.
    rewrite <- Hs, <- Hq, <- Hw.
    destruct (server w (List.length (requests w)) (refresh_request env)) as [reason|r];
      [reflexivity|].
    destruct (validateStatus (status r)); [|reflexivity].
    destruct (status r =? 200); [|reflexivity].
    destruct (JS.get (data r) "access_token"); [|reflexivity].
    destruct (decide (TOKEN_FILE env ∈ write_denied w)); reflexivity.
  - rewrite !(refresh_without_secrets env _ Hsec). reflexivity.
Qed.

Lemma getAccessToken_same_inputs (env : gmap string string) (w w' : World) :
  same_inputs w w' ->
  result_of (getAccessToken env w) = result_of (getAccessToken env w').
Proof.
  intros H. pose proof (refresh_same_inputs env w w' H) as Hrefresh.
  destruct H as (Hf & Hr & Hw & Hs & Hq).
  rewrite !getAccessToken_cases. rewrite <- Hf, <- Hr.
  destruct (files w !! TOKEN_FILE env) as [content|]; [|exact Hrefresh].
  destruct (decide (TOKEN_FILE env ∈ read_denied w)); [exact Hrefresh|].
  destruct (JSON.parse content) as [tokenData|]; [|exact Hrefresh].
  destruct (JS.get tokenData "access_token"); [reflexivity|exact Hrefresh].
Qed.

Lemma same_inputs_log (args : list JS.Value) (w : World) :
  same_inputs (emit (ConsoleLog args) w) w.
Proof.
  unfold same_inputs. rewrite requests_emit_log. repeat split.
Qed.

Lemma same_inputs_trans (w1 w2 w3 : World) :
  same_inputs w1 w2 -> same_inputs w2 w3 -> same_inputs w1 w3.
Proof.
  intros (A1 & A2 & A3 & A4 & A5) (B1 & B2 & B3 & B4 & B5).
  unfold same_inputs. repeat split; congruence.
Qed.


Lemma getAccessToken_files (env : gmap string string) (w : World) :
  files (world_after (getAccessToken env w)) = files w
  \/ exists v, files (world_after (getAccessToken env w))
               = <[TOKEN_FILE env := record_text v]> (files w).
Proof.
  pose proof (refresh_files env w) as Hrefresh.
  rewrite getAccessToken_cases.
  destruct (files w !! TOKEN_FILE env) as [content|]; [|exact Hrefresh].
  destruct (decide (TOKEN_FILE env ∈ read_denied w)); [exact Hrefresh|].
  destruct (JSON.parse content) as [tokenData|]; [|exact Hrefresh].
  destruct (JS.get tokenData "access_token"); [left; reflexivity|exact Hrefresh].
Qed.

(** ** The request of a refresh *)

(** X3.  With the three secrets set, a refresh sends exactly one request,
    whatever the token endpoint answers: a POST to the token endpoint
    whose form body carries the refresh token, the client identifier,
    the client secret and the grant type, in that order.  It is never
    sent twice. *)
Theorem refresh_sends_one_request
    (env : gmap string string) (w : World) (id secret token : string) :
  env !! "ZOHO_CLIENT_ID" = Some id ->
  env !! "ZOHO_CLIENT_SECRET" = Some secret ->
  env !! "ZOHO_REFRESH_TOKEN" = Some token ->
  id <> "" -> secret <> "" -> token <> "" ->
  requests (world_after (refreshAccessToken env w))
  = (requests w
     ++ [mkRequest "https://accounts.zoho.eu/oauth/v2/token"
           [("refresh_token", token); ("client_id", id);
            ("client_secret", secret); ("grant_type", "refresh_token")]
           [("Content-Type", "application/x-www-form-urlencoded")]])%list.
Proof.
  intros Hid Hsecret Htoken Nid Nsecret Ntoken.
  rewrite refresh_requests.
  unfold secrets_present, refresh_request, refresh_params, CLIENT_ID, CLIENT_SECRET,
    REFRESH_TOKEN, process_env.
  rewrite Hid, Hsecret, Htoken. cbn [JS.truthy JS.ToString].
  apply String.eqb_neq in Nid, Nsecret, Ntoken.
  rewrite Nid, Nsecret, Ntoken. reflexivity.
Qed.

Lemma refresh_sends_one_request_witness :
  let w := Sample.world ∅ (fun _ _ => NoReply "getaddrinfo ENOTFOUND accounts.zoho.eu")
             Sample.morning in
  requests (world_after (refreshAccessToken Sample.env w))
  = (requests w
     ++ [mkRequest "https://accounts.zoho.eu/oauth/v2/token"
           [("refresh_token", "1000.refresh"); ("client_id", "1000.CLIENT");
            ("client_secret", "s3cret"); ("grant_type", "refresh_token")]
           [("Content-Type", "application/x-www-form-urlencoded")]])%list.
Proof.
  apply (refresh_sends_one_request Sample.env);
    solve [vm_compute; reflexivity | discriminate].
Defined.

(** ** The errors of a refresh *)



(** X5.  What the message of a failed refresh says.  With the secrets set:
    when no answer comes, it ends with the message of the network
    error; when the answer has a status outside 2xx, it ends with the
    body when that is a non-empty string, and with the status text when
    the body is empty or absent. *)
Theorem refresh_failure_message (env : gmap string string) (w : World) :
  secrets_present env = true ->
  (forall reason,
      server w (List.length (requests w)) (refresh_request env) = NoReply reason ->
      result_of (refreshAccessToken env w)
      = Thrown (Error ("Token refresh failed: " ++ reason)))
  /\ (forall r,
        server w (List.length (requests w)) (refresh_request env) = Replied r ->
        validateStatus (status r) = false ->
        (forall text, data r = JS.Str text -> text <> "" ->
           result_of (refreshAccessToken env w)
           = Thrown (Error ("Token refresh failed: " ++ text)))
        /\ (data r = JS.Str "" \/ data r = JS.undefined \/ data r = JS.null ->
            result_of (refreshAccessToken env w)
            = Thrown (Error ("Token refresh failed: " ++ statusText r)))).
Proof.
  intros Hsec. rewrite (refresh_with_secrets env w Hsec). cbn zeta. split.
  - intros reason ->. reflexivity.
  - intros r -> ->. split.
    + intros text -> Htext. unfold JS.or_else. cbn [JS.truthy].
      apply String.eqb_neq in Htext. rewrite Htext. reflexivity.
    + intros [-> | [-> | ->]]; reflexivity.
Qed.

Lemma refresh_failure_message_witness :
  let w := Sample.world ∅
             (Sample.answering (mkResponse 502 "Bad Gateway" (JS.Str ""))) Sample.morning in
  result_of (refreshAccessToken Sample.env w)
  = Thrown (Error "Token refresh failed: Bad Gateway").
Proof.
  cbn zeta.
  destruct (refresh_failure_message Sample.env
              (Sample.world ∅
                 (Sample.answering (mkResponse 502 "Bad Gateway" (JS.Str "")))
                 Sample.morning)) as [_ Hreplied]; [vm_compute; reflexivity|].
  destruct (Hreplied (mkResponse 502 "Bad Gateway" (JS.Str ""))) as [_ Hempty];
    [reflexivity | reflexivity |].
  apply Hempty. left. reflexivity.
Defined.

(** ** Refresh, then read *)

(** X6.  The string a refresh returns is what [getAccessToken] serves from
    then on: called in the world the refresh left, with the token file
    readable, it returns the same string and touches nothing, so it
    sends no request. *)
Theorem refreshed_token_is_served (env : gmap string string) (w : World) (s : string) :
  result_of (refreshAccessToken env w) = Returned (JS.Str s) ->
  TOKEN_FILE env ∉ read_denied w ->
  let w1 := world_after (refreshAccessToken env w) in
  getAccessToken env w1 = (Returned (JS.Str s), w1).
Proof.
  intros Hres Hread.
  assert (JS.Str s <> JS.undefined) as Hdef by discriminate.
  rewrite (refresh_returned env w _ Hres Hdef). cbn zeta.
  unfold world_after. cbn [snd].
  rewrite getAccessToken_cases. cbn [files store read_denied emit].
  rewrite lookup_insert_eq, parse_record_text.
  destruct (decide (TOKEN_FILE env ∈ read_denied w)); [contradiction|reflexivity].
Qed.

Lemma refreshed_token_is_served_witness :
  let w := Sample.world ∅ (Sample.issuing "fresh \ value") Sample.morning in
  let w1 := world_after (refreshAccessToken Sample.env w) in
  getAccessToken Sample.env w1 = (Returned (JS.Str "fresh \ value"), w1).
Proof.
  apply (refreshed_token_is_served Sample.env).
  - vm_compute. reflexivity.
  - simpl. apply not_elem_of_empty.
Defined.

(** X7.  A 200 answer whose body is an object without [access_token] is
    taken as a success: the refresh returns [undefined] and overwrites
    the token file with [{}].  From then on [getAccessToken] returns
    [undefined] from the file and never asks the token endpoint again. *)
Theorem reply_without_token_is_cached
    (env : gmap string string) (w : World) (r : Response)
    (props : list (string * JS.Value)) :
  secrets_present env = true ->
  server w (List.length (requests w)) (refresh_request env) = Replied r ->
  status r = 200 ->
  data r = JS.Obj props ->
  JS.lookup_prop "access_token" props = None ->
  TOKEN_FILE env ∉ write_denied w ->
  TOKEN_FILE env ∉ read_denied w ->
  let w1 := world_after (refreshAccessToken env w) in
  result_of (refreshAccessToken env w) = Returned JS.undefined
  /\ files w1 !! TOKEN_FILE env = Some "{}"
  /\ getAccessToken env w1 = (Returned JS.undefined, w1).
Proof.
  intros Hsec Hreply Hstatus Hdata Hprops Hwrite Hread.
  assert (JS.get (data r) "access_token" = Some JS.undefined) as Hget.
  { rewrite Hdata. cbn [JS.get]. rewrite Hprops. reflexivity. }
  rewrite (refresh_success env w r _ Hsec Hreply Hstatus Hget Hwrite). cbn zeta.
  unfold result_of, world_after. cbn [fst snd].
  split; [reflexivity|]. split.
  - cbn [files store]. apply lookup_insert_eq.
  - rewrite getAccessToken_cases. cbn [files store read_denied emit].
    rewrite lookup_insert_eq.
    destruct (decide (TOKEN_FILE env ∈ read_denied w)); [contradiction|reflexivity].
Qed.

Lemma reply_without_token_is_cached_witness :
  let refused := mkResponse 200 "OK" (JS.Obj [("error", JS.Str "invalid_code")]) in
  let w := Sample.world (Sample.token_file "not json") (Sample.answering refused)
             Sample.morning in
  let w1 := world_after (refreshAccessToken Sample.env w) in
  result_of (refreshAccessToken Sample.env w) = Returned JS.undefined
  /\ files w1 !! TOKEN_FILE Sample.env = Some "{}"
  /\ getAccessToken Sample.env w1 = (Returned JS.undefined, w1).
Proof.
  apply (reply_without_token_is_cached Sample.env _
           (mkResponse 200 "OK" (JS.Obj [("error", JS.Str "invalid_code")]))
           [("error", JS.Str "invalid_code")]).
  - vm_compute. reflexivity.
  - reflexivity.
  - reflexivity.
  - reflexivity.
  - reflexivity.
  - simpl. apply not_elem_of_empty.
  - simpl. apply not_elem_of_empty.
Defined.

(** * Further properties of the attendance manager *)

(** ** [checkInOut], once the credential is there *)

Section CheckInOutCases.

Variable env : gmap string string.

Lemma checkInOut_with_credential
    (isCheckIn : bool) (w w1 : World) (accessToken : JS.Value) :
  getAccessToken env w = (Returned accessToken, w1) ->
  let req := attendance_request isCheckIn accessToken (clock w1 (clock_reads w1)) in
  let w2 := emit (Post req) (tick w1) in
  (forall reason,
      server w1 (List.length (requests w1)) req = NoReply reason ->
      checkInOut env isCheckIn w = mark_failed isCheckIn (mkError reason None) w2)
  /\ (forall r,
        server w1 (List.length (requests w1)) req = Replied r ->
        validateStatus (status r) = false ->
        checkInOut env isCheckIn w = mark_failed isCheckIn (status_error r) w2).
Proof.
  intros Hget req w2.
  assert (forall b : bool,
             (if b then append_param [("dateFormat", "dd/MM/yyyy HH:mm:ss")] "checkIn"
                         (format_time (clock w1 (clock_reads w1)))
              else append_param [("dateFormat", "dd/MM/yyyy HH:mm:ss")] "checkOut"
                     (format_time (clock w1 (clock_reads w1))))
             = [("dateFormat", "dd/MM/yyyy HH:mm:ss");
                (if b then "checkIn" else "checkOut",
                 format_time (clock w1 (clock_reads w1)))]) as Hpayload
      by (intros []; reflexivity).
  split.
  - intros reason Hreply.
    unfold checkInOut, try_catch, mbind, Async_bind, bind. rewrite Hget.
    unfold new_Date, axios_post.
    change (server (tick w1)) with (server w1).
    change (requests (tick w1)) with (requests w1).
    cbn zeta. rewrite Hpayload.
    fold (attendance_request isCheckIn accessToken (clock w1 (clock_reads w1))).
    fold req. rewrite Hreply. reflexivity.
  - intros r Hreply Hstatus.
    unfold checkInOut, try_catch, mbind, Async_bind, bind. rewrite Hget.
    unfold new_Date, axios_post.
    change (server (tick w1)) with (server w1).
    change (requests (tick w1)) with (requests w1).
    cbn zeta. rewrite Hpayload.
    fold (attendance_request isCheckIn accessToken (clock w1 (clock_reads w1))).
    fold req. rewrite Hreply, Hstatus. reflexivity.
Qed.

(** Whatever the attendance endpoint does, the action sends it one
    request and leaves the files as [getAccessToken] left them. *)
Lemma checkInOut_after_credential
    (isCheckIn : bool) (w w1 : World) (accessToken : JS.Value) :
  getAccessToken env w = (Returned accessToken, w1) ->
  requests (world_after (checkInOut env isCheckIn w))
  = (requests w1
     ++ [attendance_request isCheckIn accessToken (clock w1 (clock_reads w1))])%list
  /\ files (world_after (checkInOut env isCheckIn w)) = files w1
  /\ cron_table (world_after (checkInOut env isCheckIn w)) = cron_table w1.
Proof.
  intros Hget.
  destruct (checkInOut_with_credential isCheckIn w w1 accessToken Hget)
    as [Hnone Hbad].
  destruct (server w1 (List.length (requests w1))
              (attendance_request isCheckIn accessToken (clock w1 (clock_reads w1))))
    as [reason|r] eqn:Hreply.
  - rewrite (Hnone reason eq_refl). unfold mark_failed, world_after. cbn [snd].
    rewrite requests_emit_error, requests_tick, requests_emit_post, requests_tick.
    repeat split.
  - destruct (validateStatus (status r)) eqn:Hstatus.
    + destruct (checkInOut_accepted env isCheckIn w w1 accessToken r Hget Hreply Hstatus)
        as (_ & Hreq & _).
      split; [exact Hreq|].
      unfold checkInOut, try_catch, mbind, Async_bind, bind. rewrite Hget.
      unfold new_Date, axios_post.
      change (server (tick w1)) with (server w1).
      change (requests (tick w1)) with (requests w1).
      cbn zeta.
      destruct isCheckIn; cbn [append_param app];
        unfold attendance_request in Hreply; rewrite Hreply, Hstatus;
        split; reflexivity.
    + rewrite (Hbad r eq_refl Hstatus). unfold mark_failed, world_after. cbn [snd].
      rewrite requests_emit_error, requests_tick, requests_emit_post, requests_tick.
      repeat split.
Qed.

End CheckInOutCases.

(** ** What a mark sends *)






(** ** Storage that cannot be written *)

(** X10.  With nothing usable in the token file and a file that cannot be
    written, every mark fails, although the token endpoint issues a
    value each time: the refresh throws after its request, the
    attendance endpoint is never contacted, and the files stay as they
    were. *)
Theorem unwritable_storage_blocks_marks
    (env : gmap string string) (isCheckIn : bool) (w : World) (r : Response)
    (v : JS.Value) :
  cache_miss env w ->
  secrets_present env = true ->
  server w (List.length (requests w)) (refresh_request env) = Replied r ->
  status r = 200 ->
  JS.get (data r) "access_token" = Some v ->
  TOKEN_FILE env ∈ write_denied w ->
  let after := world_after (checkInOut env isCheckIn w) in
  (exists detail,
      result_of (checkInOut env isCheckIn w)
      = Thrown (Error ("Token refresh failed: " ++ detail)))
  /\ requests after = (requests w ++ [refresh_request env])%list
  /\ files after = files w.
Proof.
  intros Hmiss Hsec Hreply Hstatus Hget Hwrite.
  assert (getAccessToken env w
          = (Thrown (refresh_failure ("EACCES: permission denied, open "
                                      ++ quoted (TOKEN_FILE env))),
             emit (Post (refresh_request env)) w)) as Hfail.
  { rewrite (cache_miss_refreshes env w Hmiss), (refresh_with_secrets env w Hsec).
    cbn zeta. rewrite Hreply, Hstatus, Hget.
    destruct (decide (TOKEN_FILE env ∈ write_denied w)); [reflexivity|contradiction]. }
  cbn zeta. rewrite (checkInOut_without_credential env isCheckIn w _ _ Hfail).
  unfold result_of, world_after, refresh_failure. cbn [fst snd].
  split; [eauto|]. split; [|reflexivity].
  rewrite requests_emit_error, requests_tick, requests_emit_post. reflexivity.
Qed.

Lemma unwritable_storage_blocks_marks_witness :
  let w0 := Sample.world ∅ (Sample.issuing "fresh") Sample.morning in
  let w := mkWorld (files w0) (read_denied w0) {["access_token.json"]} (server w0)
             (clock w0) (clock_reads w0) (toLocaleString w0) (trace w0)
             (cron_table w0) in
  let after := world_after (checkInOut Sample.env true w) in
  (exists detail,
      result_of (checkInOut Sample.env true w)
      = Thrown (Error ("Token refresh failed: " ++ detail)))
  /\ requests after = (requests w ++ [refresh_request Sample.env])%list
  /\ files after = files w.
Proof.
  apply (unwritable_storage_blocks_marks Sample.env true _
           (mkResponse 200 "OK"
              (JS.Obj [("access_token", JS.Str "fresh"); ("expires_in", JS.Num "3600")]))
           (JS.Str "fresh")).
  - vm_compute. exact I.
  - vm_compute. reflexivity.
  - reflexivity.
  - reflexivity.
  - reflexivity.
  - simpl. apply elem_of_singleton. reflexivity.
Defined.

(** ** The files a mark can touch *)

(** X11.  Whatever happens, [checkInOut] changes no file other than the
    token file. *)
Theorem checkInOut_touches_only_token_file
    (env : gmap string string) (isCheckIn : bool) (w : World) (path : string) :
  path <> TOKEN_FILE env ->
  files (world_after (checkInOut env isCheckIn w)) !! path = files w !! path.
Proof.
  intros Hpath.
  assert (files (world_after (getAccessToken env w)) !! path = files w !! path) as Hget.
  { destruct (getAccessToken_files env w) as [-> | [v ->]]; [reflexivity|].
    apply lookup_insert_ne. congruence. }
  destruct (getAccessToken env w) as [[accessToken|e] w1] eqn:Hcred.
  - destruct (checkInOut_after_credential env isCheckIn w w1 accessToken Hcred)
      as (_ & -> & _).
    exact Hget.
  - rewrite (checkInOut_without_credential env isCheckIn w w1 e Hcred).
    exact Hget.
Qed.

Lemma checkInOut_touches_only_token_file_witness :
  let w := Sample.world (<["notes.txt" := "keep"]> ∅) (Sample.issuing "fresh")
             Sample.morning in
  files (world_after (checkInOut Sample.env true w)) !! "notes.txt"
  = files w !! "notes.txt".
Proof.
  apply (checkInOut_touches_only_token_file Sample.env true). discriminate.
Defined.

(** * Properties of the command line *)

(** ** Printing changes nothing else *)

Lemma same_but_console_inputs (w w' : World) :
  same_but_console w w' -> same_inputs w w'.
Proof.
  intros (Hf & Hr & Hw & Hs & _ & _ & _ & Hq & _). repeat split; assumption.
Qed.

Lemma same_but_console_log (args : list JS.Value) (w w' : World) :
  same_but_console w w' -> same_but_console (emit (ConsoleLog args) w) w'.
Proof.
  intros (Hf & Hr & Hw & Hs & Hc & Hn & Hl & Hq & Ht).
  unfold same_but_console. rewrite requests_emit_log. repeat split; assumption.
Qed.

Lemma same_but_console_refl (w : World) : same_but_console w w.
Proof. repeat split. Qed.

Lemma same_but_console_post (req : Request) (w w' : World) :
  same_but_console w w' -> same_but_console (emit (Post req) w) (emit (Post req) w').
Proof.
  intros (Hf & Hr & Hw & Hs & Hc & Hn & Hl & Hq & Ht).
  unfold same_but_console. rewrite !requests_emit_post, Hq. repeat split; assumption.
Qed.

Lemma same_but_console_store (path content : string) (w w' : World) :
  same_but_console w w' ->
  same_but_console (store path content w) (store path content w').
Proof.
  intros (Hf & Hr & Hw & Hs & Hc & Hn & Hl & Hq & Ht).
  unfold same_but_console. rewrite !requests_store. cbn [files store read_denied
    write_denied server clock clock_reads toLocaleString cron_table].
  rewrite Hf. repeat split; assumption.
Qed.

Lemma refresh_same_but_console (env : gmap string string) (w w' : World) :
  same_but_console w w' ->
  result_of (refreshAccessToken env w) = result_of (refreshAccessToken env w')
  /\ same_but_console (world_after (refreshAccessToken env w))
       (world_after (refreshAccessToken env w')).
Proof.
  intros H. split; [apply refresh_same_inputs, same_but_console_inputs, H|].
  pose proof (same_but_console_post (refresh_request env) w w' H) as Hpost.
  destruct H as (Hf & Hr & Hw & Hs & Hc & Hn & Hl & Hq & Ht).
  destruct (secrets_present env) eqn:Hsec.
  - rewrite !(refresh_with_secrets env _ Hsec). cbn zeta.
    rewrite <- Hs, <- Hq, <- Hw.
    destruct (server w (List.length (requests w)) (refresh_request env)) as [reason|r];
      [exact Hpost|].
    destruct (validateStatus (status r)); [|exact Hpost].
    destruct (status r =? 200); [|exact Hpost].
    destruct (JS.get (data r) "access_token"); [|exact Hpost].
    destruct (decide (TOKEN_FILE env ∈ write_denied w)); [exact Hpost|].
    apply same_but_console_store, Hpost.
  - rewrite !(refresh_without_secrets env _ Hsec).
    repeat split; assumption.
Qed.

Lemma getAccessToken_same_but_console (env : gmap string string) (w w' : World) :
  same_but_console w w' ->
  result_of (getAccessToken env w) = result_of (getAccessToken env w')
  /\ same_but_console (world_after (getAccessToken env w))
       (world_after (getAccessToken env w')).
Proof.
  intros H. pose proof (refresh_same_but_console env w w' H) as Hrefresh.
  pose proof H as (Hf & Hr & _).
  rewrite !getAccessToken_cases. rewrite <- Hf, <- Hr.
  destruct (files w !! TOKEN_FILE env) as [content|]; [|exact Hrefresh].
  destruct (decide (TOKEN_FILE env ∈ read_denied w)); [exact Hrefresh|].
  destruct (JSON.parse content) as [tokenData|]; [|exact Hrefresh].
  destruct (JS.get tokenData "access_token"); [|exact Hrefresh].
  split; [reflexivity|exact H].
Qed.

(** What [checkInOut] returns or throws does not depend on what was
    printed before. *)
Lemma checkInOut_same_but_console
    (env : gmap string string) (isCheckIn : bool) (w w' : World) :
  same_but_console w w' ->
  result_of (checkInOut env isCheckIn w) = result_of (checkInOut env isCheckIn w').
Proof.
  intros H.
  destruct (getAccessToken_same_but_console env w w' H) as [Hres Hafter].
  destruct (getAccessToken env w) as [o w1] eqn:Hget.
  destruct (getAccessToken env w') as [o' w1'] eqn:Hget'.
  unfold result_of, world_after in Hres, Hafter. cbn [fst snd] in Hres, Hafter.
  subst o'.
  destruct o as [accessToken|e].
  - destruct Hafter as (_ & _ & _ & Hs & Hc & Hn & _ & Hq & _).
    destruct (checkInOut_with_credential env isCheckIn w w1 accessToken Hget)
      as [Hnone Hbad].
    destruct (checkInOut_with_credential env isCheckIn w' w1' accessToken Hget')
      as [Hnone' Hbad'].
    cbn zeta in Hnone', Hbad'.
    pose proof (checkInOut_accepted env isCheckIn w' w1' accessToken) as Hok'.
    rewrite <- Hs, <- Hc, <- Hn, <- Hq in Hnone', Hbad', Hok'.
    destruct (server w1 (List.length (requests w1))
                (attendance_request isCheckIn accessToken (clock w1 (clock_reads w1))))
      as [reason|r] eqn:Hreply.
    + rewrite (Hnone reason eq_refl), (Hnone' reason eq_refl). reflexivity.
    + destruct (validateStatus (status r)) eqn:Hstatus.
      * destruct (checkInOut_accepted env isCheckIn w w1 accessToken r Hget Hreply Hstatus)
          as [-> _].
        destruct (Hok' r Hget' eq_refl Hstatus) as [-> _]. reflexivity.
      * rewrite (Hbad r eq_refl Hstatus), (Hbad' r eq_refl Hstatus). reflexivity.
  - rewrite (checkInOut_without_credential env isCheckIn w w1 e Hget).
    rewrite (checkInOut_without_credential env isCheckIn w' w1' e Hget').
    reflexivity.
Qed.

(** ** Manual marks *)

(** X12.  The exit code of a manual mark: for [checkin] or [check-in] as
    first argument, in any letter case and whatever follows it, the
    process ends with [process.exit]: code 0 when [checkIn] returns, code
    1 when it throws.  Likewise [checkout] and [check-out] with
    [checkOut]. *)
Theorem manual_mark_exit_code
    (env : gmap string string) (first : string) (rest : list string) (w : World) :
  let command := toLowerCase first in
  (command = "checkin" \/ command = "check-in" ->
   fst (handleCommandLine env (first :: rest) w)
   = match result_of (checkIn env w) with
     | Returned _ => Exit 0
     | Thrown _ => Exit 1
     end)
  /\ (command = "checkout" \/ command = "check-out" ->
      fst (handleCommandLine env (first :: rest) w)
      = match result_of (checkOut env w) with
        | Returned _ => Exit 0
        | Thrown _ => Exit 1
        end).
Proof.
  cbn zeta. unfold checkIn, checkOut. split; intros Hcommand.
  - rewrite <- (checkInOut_same_but_console env true
                  (emit (ConsoleLog [JS.Str "🕘 Manual check-in initiated..."]) w) w)
      by apply same_but_console_log, same_but_console_refl.
    unfold handleCommandLine. cbn zeta.
    assert ((String.eqb (toLowerCase first) "checkin"
             || String.eqb (toLowerCase first) "check-in")%bool = true) as ->
        by (destruct Hcommand as [-> | ->]; reflexivity).
    unfold mbind, Process_bind, and_then, run, console_log, then_catch, result_of.
    unfold checkIn. cbn beta iota.
    destruct (checkInOut env true _) as [[v|e] w1]; reflexivity.
  - rewrite <- (checkInOut_same_but_console env false
                  (emit (ConsoleLog [JS.Str "🕐 Manual check-out initiated..."]) w) w)
      by apply same_but_console_log, same_but_console_refl.
    unfold handleCommandLine. cbn zeta.
    assert ((String.eqb (toLowerCase first) "checkin"
             || String.eqb (toLowerCase first) "check-in")%bool = false) as ->
        by (destruct Hcommand as [-> | ->]; reflexivity).
    assert ((String.eqb (toLowerCase first) "checkout"
             || String.eqb (toLowerCase first) "check-out")%bool = true) as ->
        by (destruct Hcommand as [-> | ->]; reflexivity).
    unfold mbind, Process_bind, and_then, run, console_log, then_catch, result_of.
    unfold checkOut. cbn beta iota.
    destruct (checkInOut env false _) as [[v|e] w1]; reflexivity.
Qed.

(** The token manager arms and disarms nothing. *)
Lemma getAccessToken_cron_table (env : gmap string string) (w : World) :
  cron_table (world_after (getAccessToken env w)) = cron_table w.
Proof.
  assert (cron_table (world_after (refreshAccessToken env w)) = cron_table w) as Hrefresh.
  { destruct (secrets_present env) eqn:Hsec.
    - rewrite (refresh_with_secrets env w Hsec). cbn zeta.
      destruct (server w (List.length (requests w)) (refresh_request env)) as [reason|r];
        [reflexivity|].
      destruct (validateStatus (status r)); [|reflexivity].
      destruct (status r =? 200); [|reflexivity].
      destruct (JS.get (data r) "access_token"); [|reflexivity].
      destruct (decide (TOKEN_FILE env ∈ write_denied w)); reflexivity.
    - rewrite (refresh_without_secrets env w Hsec). reflexivity. }
  rewrite getAccessToken_cases.
  destruct (files w !! TOKEN_FILE env) as [content|]; [|exact Hrefresh].
  destruct (decide (TOKEN_FILE env ∈ read_denied w)); [exact Hrefresh|].
  destruct (JSON.parse content) as [tokenData|]; [|exact Hrefresh].
  destruct (JS.get tokenData "access_token"); [reflexivity|exact Hrefresh].
Qed.

(** ** The [test] command *)

(** X13.  The exit code of [test] is decided by the credential alone: it is 0
    exactly when [getAccessToken] returns a string, and 1 when it throws
    or returns anything else (such as the [undefined] of a stored [{}]),
    since the preview of the token then fails.  Whether the two schedule
    expressions validate is printed and changes nothing: the code is the
    same for valid and invalid schedules, and no task is armed. *)
Theorem test_exit_code
    (env : gmap string string) (first : string) (rest : list string) (w : World) :
  toLowerCase first = "test" ->
  fst (handleCommandLine env (first :: rest) w)
  = match result_of (getAccessToken env w) with
    | Returned (JS.Str _) => Exit 0
    | _ => Exit 1
    end
  /\ cron_table (snd (handleCommandLine env (first :: rest) w)) = cron_table w.
Proof.
  intros Hcommand.
  unfold handleCommandLine. cbn zeta. rewrite Hcommand.
  cbn [String.eqb Ascii.eqb Bool.eqb orb andb].
  unfold test_configuration, mbind, Process_bind, and_then, run, console_log, console_error.
  cbn beta iota.
  destruct (Cron.validate (CHECKIN_TIME env)), (Cron.validate (CHECKOUT_TIME env));
    cbn beta iota;
    match goal with
    | |- context [then_catch _ _ _ ?w6] =>
        assert (same_but_console w6 w) as H6
            by (repeat apply same_but_console_log; apply same_but_console_refl);
        destruct (getAccessToken_same_but_console env w6 w H6) as [Hres Hafter];
        rewrite <- Hres;
        unfold then_catch, result_of, world_after in *;
        destruct (getAccessToken env w6) as [[token|e] w7]; cbn [fst snd] in *;
        pose proof (getAccessToken_cron_table env w) as Htable;
        unfold world_after in Htable;
        destruct Hafter as (_ & _ & _ & _ & _ & _ & _ & _ & Ht);
        rewrite Htable in Ht;
        [ destruct token; cbn [substring_0_10 process_exit fst snd emit cron_table];
          (split; [reflexivity|exact Ht])
        | cbn [process_exit fst snd emit cron_table]; split; [reflexivity|exact Ht] ]
    end.
Qed.

Lemma test_exit_code_witness :
  let w := Sample.world (Sample.token_file "{}") (Sample.issuing "fresh")
             Sample.morning in
  fst (handleCommandLine Sample.env ["TEST"; "now"] w) = Exit 1
  /\ cron_table (snd (handleCommandLine Sample.env ["TEST"; "now"] w)) = cron_table w.
Proof.
  apply (test_exit_code Sample.env "TEST" ["now"]
           (Sample.world (Sample.token_file "{}") (Sample.issuing "fresh")
              Sample.morning)).
  reflexivity.
Defined.

(** ** Commands that do nothing *)

(** X14.  A first argument that is none of the action commands, in any letter
    case, ends the process at once: with code 0 for [help], [--help] and
    [-h], with code 1 for anything else.  Nothing is sent, no file is
    changed and no task is armed. *)
Theorem other_commands_touch_nothing
    (env : gmap string string) (first : string) (rest : list string) (w : World) :
  ~ In (toLowerCase first) action_commands ->
  let ended := handleCommandLine env (first :: rest) w in
  fst ended = Exit (if existsb (String.eqb (toLowerCase first)) help_commands
                    then 0 else 1)
  /\ requests (snd ended) = requests w
  /\ files (snd ended) = files w
  /\ cron_table (snd ended) = cron_table w.
Proof.
  intros Hother. cbn zeta.
  assert (forall word, In word action_commands ->
                       String.eqb (toLowerCase first) word = false) as Hne.
  { intros word Hword. apply String.eqb_neq. intros Heq. subst word. contradiction. }
  unfold handleCommandLine. cbn zeta.
  rewrite !Hne by (unfold action_commands; cbn [In]; tauto).
  cbn [orb].
  unfold help_commands. cbn [existsb].
  unfold mbind, Process_bind, and_then, run, console_log, console_error, process_exit.
  destruct (String.eqb (toLowerCase first) "help"),
    (String.eqb (toLowerCase first) "--help"),
    (String.eqb (toLowerCase first) "-h");
    cbn [orb fst snd]; rewrite ?requests_emit_log, ?requests_emit_error;
    repeat split.
Qed.

Lemma other_commands_touch_nothing_witness :
  let w := Sample.world ∅ (Sample.issuing "fresh") Sample.morning in
  let ended := handleCommandLine Sample.env ["status"] w in
  fst ended = Exit 1
  /\ requests (snd ended) = requests w
  /\ files (snd ended) = files w
  /\ cron_table (snd ended) = cron_table w.
Proof.
  apply (other_commands_touch_nothing Sample.env "status" []).
  unfold action_commands. cbn [In]. intros H.
  repeat (destruct H as [H|H]; [discriminate H|]). exact H.
Defined.

(** ** Scheduler mode *)

Lemma startScheduler_cases (env : gmap string string) (w : World) :
  startScheduler env w
  = if Cron.validate (CHECKIN_TIME env) then
      if Cron.validate (CHECKOUT_TIME env) then
        (Returned tt,
         emit (ConsoleLog [JS.Str "🚀 Attendance scheduler started"])
           (emit (ConsoleLog [JS.Str ("   - Timezone: " ++ TIMEZONE env)])
              (emit (ConsoleLog [JS.Str ("   - Check-out: " ++ CHECKOUT_TIME env)])
                 (emit (ConsoleLog [JS.Str ("   - Check-in: " ++ CHECKIN_TIME env)])
                    (emit (ConsoleLog [JS.Str "📅 Cron jobs scheduled:"])
                       (arm (checkout_task env) (arm (checkin_task env) w)))))))
      else (Thrown (Error (CHECKOUT_TIME env ++ " is a invalid expression")),
            arm (checkin_task env) w)
    else (Thrown (Error (CHECKIN_TIME env ++ " is a invalid expression")), w).
Proof.
  unfold startScheduler, setupCronJobs, mbind, Async_bind, bind, Cron.schedule.
  destruct (Cron.validate (CHECKIN_TIME env)); [|reflexivity].
  cbn beta iota.
  destruct (Cron.validate (CHECKOUT_TIME env)); reflexivity.
Qed.

(** X15.  In scheduler mode the program never calls [process.exit], sends no
    request and reads or writes no credential: the token is first asked
    for when a task fires.  When [handleCommandLine] returns, exactly two
    tasks were armed: the check-in task, then the check-out task, both in
    the configured time zone. *)
Theorem scheduler_mode_starts_quietly
    (env : gmap string string) (args : list string) (w : World) :
  scheduler_mode args ->
  let ended := handleCommandLine env args w in
  (forall code, fst ended <> Exit code)
  /\ requests (snd ended) = requests w
  /\ files (snd ended) = files w
  /\ (fst ended = Goes tt ->
      cron_table (snd ended)
      = (cron_table w
         ++ [mkTask (CHECKIN_TIME env) CheckInJob (TIMEZONE env);
             mkTask (CHECKOUT_TIME env) CheckOutJob (TIMEZONE env)])%list).
Proof.
  intros Hmode. cbn zeta.
  assert (handleCommandLine env args w = run (startScheduler env) w) as ->.
  { destruct args as [|first rest]; [reflexivity|].
    unfold handleCommandLine. cbn zeta.
    destruct Hmode as [-> | ->]; reflexivity. }
  unfold run. rewrite startScheduler_cases.
  destruct (Cron.validate (CHECKIN_TIME env)).
  - destruct (Cron.validate (CHECKOUT_TIME env)); cbn [fst snd].
    + rewrite !requests_emit_log. split; [discriminate|].
      split; [reflexivity|]. split; [reflexivity|].
      intros _. cbn [emit arm cron_table]. rewrite <- app_assoc. reflexivity.
    + split; [discriminate|]. split; [reflexivity|]. split; [reflexivity|].
      discriminate.
  - cbn [fst snd]. split; [discriminate|]. split; [reflexivity|].
    split; [reflexivity|]. discriminate.
Qed.

Lemma scheduler_mode_starts_quietly_witness :
  let w := Sample.world ∅ (Sample.issuing "fresh") Sample.morning in
  let ended := handleCommandLine Sample.env ["Start"] w in
  fst ended = Goes tt
  /\ requests (snd ended) = requests w
  /\ files (snd ended) = files w
  /\ cron_table (snd ended)
     = [mkTask "0 9 * * 1-5" CheckInJob "Europe/Berlin";
        mkTask "0 18 * * 1-5" CheckOutJob "Europe/Berlin"].
Proof.
  cbn zeta.
  destruct (scheduler_mode_starts_quietly Sample.env ["Start"]
              (Sample.world ∅ (Sample.issuing "fresh") Sample.morning))
    as (_ & Hreq & Hfiles & Htable).
  - right. reflexivity.
  - split; [vm_compute; reflexivity|]. split; [exact Hreq|]. split; [exact Hfiles|].
    apply Htable. vm_compute. reflexivity.
Defined.

Lemma manual_mark_exit_code_witness :
  let w := Sample.world (Sample.token_file (record_text (JS.Str "cached-value")))
             (Sample.issuing "fresh") Sample.morning in
  let down := Sample.world (Sample.token_file (record_text (JS.Str "cached-value")))
                (fun _ _ => NoReply "connect ETIMEDOUT") Sample.morning in
  fst (handleCommandLine Sample.env ["Check-In"] w) = Exit 0
  /\ fst (handleCommandLine Sample.env ["CHECKOUT"; "please"] down) = Exit 1.
Proof.
  cbn zeta. split.
  - destruct (manual_mark_exit_code Sample.env "Check-In" []
                (Sample.world (Sample.token_file (record_text (JS.Str "cached-value")))
                   (Sample.issuing "fresh") Sample.morning)) as [Hin _].
    rewrite Hin by (right; reflexivity). vm_compute. reflexivity.
  - destruct (manual_mark_exit_code Sample.env "CHECKOUT" ["please"]
                (Sample.world (Sample.token_file (record_text (JS.Str "cached-value")))
                   (fun _ _ => NoReply "connect ETIMEDOUT") Sample.morning))
      as [_ Hout].
    rewrite Hout by (left; reflexivity). vm_compute. reflexivity.
Defined.

(** ** An accepted mark *)


